(** * drl-quant-trading: training and backtesting pages, progress reporting,
      evaluation and metrics

    A shallow embedding of the parts of the repository that the properties
    C1 to C10 of its specification talk about:

    - the React pages [AgentTraining.tsx] and [Backtesting] (polling loops,
      result tables) and the service declarations they import;
    - the Python fragments of [training_service.py], [trainer.py] and
      [routers/training.py] quoted in the repository's own change notes
      (PROGRESS_DISPLAY_FIX.md, A2C_ZERO_RETURN_FIX.md, FIXES_APPLIED.md);
    - the backend functions of which the sources hold only a description
      (backtest fallback, Sharpe ratio, action normalisation); those
      definitions are marked [Modelled from the spec].

    The modules from [ProgressBar] on carry further properties, each
    named X with a number, of the same code and of what surrounds it: the progress bar over
    a run, the handlers and the browser storage of the training page, the
    charts of the backtesting page, the advisory table after its update,
    and the stock page [StockManagement.tsx].

    JavaScript and Python numbers are idealised: integers as [Z], step
    counters and money as rationals [Q], and the quantities that need
    [exp] or [sqrt] as reals [R]. *)

From Stdlib Require Import ZArith QArith Qround Reals Lra Lia List Bool.
From Stdlib Require Import Ascii String.
From stdpp Require Import gmap strings list fin_maps sorting pretty.
Import ListNotations.

Local Open Scope Z_scope.
Local Open Scope string_scope.

(** ** Shared vocabulary *)

(** [status: 'pending' | 'training' | 'completed' | 'failed'] of
    [TrainingProgress] (trainingService.ts). *)
Inductive Status : Type :=
| pending
| training
| completed
| failed.

#[global] Instance Status_eq_dec : EqDecision Status.
Proof. solve_decision. Defined.

(** The JSON spelling of a status. *)
Definition status_tag (s : Status) : string :=
  match s with
  | pending => "pending"
  | training => "training"
  | completed => "completed"
  | failed => "failed"
  end.

(** [p.status === 'completed' || p.status === 'failed'] *)
Definition is_terminal (s : Status) : bool :=
  match s with
  | completed | failed => true
  | pending | training => false
  end.

(** antd [message.success] / [message.error] and [console.error], kept as
    a log so that what a page shows can be stated. *)
Inductive Notice : Type :=
| msg_success (text : string)
| msg_error (text : string)
| console_error (text : string).

(** ** Service declarations (trainingService.ts) *)

Module TrainingService.

(** [interface TrainingProgress] *)
Record TrainingProgress : Type := {
  algorithm : string;
  epoch : Z;
  totalEpochs : Z;
  loss : Q;
  reward : Q;
  status : Status
}.

(** [interface TrainingResult], reduced to the fields the pages read. *)
Record TrainingResult : Type := {
  res_algorithm : string;
  res_status : Status;
  returnRate : Q;
  trainingTime : Q
}.

(** [interface TrainingResponse] *)
Record TrainingResponse : Type := {
  jobId : string;
  progress : list TrainingProgress;
  results : list TrainingResult
}.

End TrainingService.

(** ** The training page (AgentTraining.tsx) *)

Module TrainingPage.
Import TrainingService.

(** Outcome of [await trainingService.getProgress(response.jobId)]:
    the promise resolves with a response or rejects. *)
Inductive Fetch : Type :=
| resolved (progressData : TrainingResponse)
| rejected (error : string).

(** The timer created by [setInterval(cb, 2000)]. *)
Record Interval : Type := { period_ms : Z }.

(** The component state the polling loop touches. [timer] is the browser
    timer itself ([None] once [clearInterval] ran); [pollingInterval]
    is the React state holding the handle. *)
Record Page : Type := {
  st_training : bool;
  st_progress : list TrainingProgress;
  st_results : list TrainingResult;
  pollingInterval : option Interval;
  timer : option Interval;
  notices : list Notice
}.

(** [progressData.progress.every(p => p.status === 'completed' ||
    p.status === 'failed')] *)
Definition allCompleted (progressData : TrainingResponse) : bool :=
  forallb (fun p => is_terminal (status p)) (progress progressData).

(** What [startTraining] does after the start request succeeded:
    [setTraining(true)], the success message, [setInterval(..., 2000)]
    and [setPollingInterval(interval)]. *)
Definition startTraining (job : string) (s : Page) : Page :=
  let interval := {| period_ms := 2000 |} in
  {| st_training := true;
     st_progress := st_progress s;
     st_results := st_results s;
     pollingInterval := Some interval;
     timer := Some interval;
     notices := notices s ++ [msg_success ("Training started! Job ID: " ++ job)] |}.

(** One run of the interval callback. *)
Definition poll (r : Fetch) (s : Page) : Page :=
  match r with
  | resolved progressData =>
      if allCompleted progressData then
        {| st_training := false;
           st_progress := progress progressData;
           st_results := results progressData;
           pollingInterval := None;
           timer := None;
           notices := notices s ++ [msg_success "Training completed!"] |}
      else
        {| st_training := st_training s;
           st_progress := progress progressData;
           st_results := results progressData;
           pollingInterval := pollingInterval s;
           timer := timer s;
           notices := notices s |}
  | rejected _ =>
      {| st_training := st_training s;
         st_progress := st_progress s;
         st_results := st_results s;
         pollingInterval := pollingInterval s;
         timer := timer s;
         notices := notices s ++ [console_error "Error fetching progress:"] |}
  end.

(** [Math.round] on the exact quotient: the nearest integer, halves
    upwards. The page rounds the double [(epoch / totalEpochs) * 100],
    which can fall just below a half where the exact value is one
    (145/1000 gives 14 there and 15 here). *)
Definition Math_round (x : Q) : Z := Qfloor (x + (1 # 2))%Q.

(** The fraction [record.epoch / record.totalEpochs] that the Progress
    column turns into a percentage. *)
Definition fraction (record : TrainingProgress) : Q :=
  (inject_Z (epoch record) / inject_Z (totalEpochs record))%Q.

(** [progressColumns], column Progress: the percentage of the bar. *)
Definition percent (record : TrainingProgress) : Z :=
  match status record with
  | pending | failed => 0
  | training | completed => Math_round (fraction record * 100)%Q
  end.

(** The label of the bar, [`${record.epoch}/${record.totalEpochs}`], as
    the pair of numbers it prints. *)
Definition format (record : TrainingProgress) : Z * Z :=
  (epoch record, totalEpochs record).

(** The timer fires the callback only while it exists; here the request
    of a firing settles before the next firing, so that firing, request
    and the code after [await] make one step. Requests that are still in
    flight when the interval is cleared are the matter of
    [TrainingPolling.step]. *)
Definition tick (r : Fetch) (s : Page) : Page :=
  match timer s with
  | Some _ => poll r s
  | None => s
  end.

(** The page driven by the successive outcomes of the poll request. *)
Definition run (rs : list Fetch) (s : Page) : Page :=
  fold_left (fun acc r => tick r acc) rs s.

(** A fetch that ends the polling. *)
Definition stops (r : Fetch) : bool :=
  match r with
  | resolved progressData => allCompleted progressData
  | rejected _ => false
  end.

Definition polling (s : Page) : bool :=
  match timer s with Some _ => true | None => false end.

Lemma allCompleted_spec progressData :
  allCompleted progressData = true <->
  Forall (fun p => status p = completed \/ status p = failed)
         (progress progressData).
Proof.
  unfold allCompleted. rewrite forallb_forall, Forall_forall.
  split; intros H p Hp.
  - specialize (H p (proj1 (list_elem_of_In _ _) Hp)).
    destruct (status p); simpl in H; auto; discriminate.
  - apply list_elem_of_In in Hp.
    destruct (H p Hp) as [-> | ->]; reflexivity.
Qed.

Lemma polling_poll r s :
  polling (poll r s) = polling s && negb (stops r).
Proof.
  destruct r as [d | e]; simpl.
  - destruct (allCompleted d); simpl.
    + now rewrite andb_false_r.
    + now rewrite andb_true_r.
  - now rewrite andb_true_r.
Qed.

Lemma polling_tick r s :
  polling (tick r s) = polling s && negb (stops r).
Proof.
  unfold tick. destruct (timer s) eqn:E.
  - apply polling_poll.
  - unfold polling. now rewrite E.
Qed.

Lemma polling_run rs : forall s,
  polling (run rs s) = polling s && forallb (fun r => negb (stops r)) rs.
Proof.
  induction rs as [| r rs IH]; intros s; simpl.
  - now rewrite andb_true_r.
  - unfold run in IH. rewrite IH, polling_tick.
    now rewrite andb_assoc.
Qed.

(** The only timer the loop ever holds is the 2000 ms one. *)
Lemma timer_poll r s i : timer (poll r s) = Some i -> timer s = Some i.
Proof.
  destruct r as [d | e]; simpl; [destruct (allCompleted d) |]; simpl;
    congruence.
Qed.

Lemma timer_tick r s i : timer (tick r s) = Some i -> timer s = Some i.
Proof.
  unfold tick. destruct (timer s) eqn:E; [| congruence].
  intros H. apply timer_poll in H. congruence.
Qed.

Lemma timer_run rs : forall s i,
  timer (run rs s) = Some i -> timer s = Some i.
Proof.
  induction rs as [| r rs IH]; intros s i; simpl; [auto |].
  intros H. apply (timer_tick r). now apply IH.
Qed.

Lemma polling_timer s : polling s = true -> exists i, timer s = Some i.
Proof. unfold polling. destruct (timer s); [eauto | discriminate]. Qed.

(** The page before [startTraining] is called. *)
Definition initial : Page :=
  {| st_training := false; st_progress := []; st_results := [];
     pollingInterval := None; timer := None; notices := [] |}.

(** C9: while the training page polls (after [startTraining], whatever
    the earlier poll outcomes were), the timer is the 2000 ms interval,
    and one more tick clears it exactly when the request succeeded and
    every entry of the response has status completed or failed; in that
    case the training flag and the stored handle are reset; a rejected
    request leaves timer, flag and handle as they were, so the next tick
    polls again. *)
Theorem training_poll_stops_iff_all_terminal
    (job : string) (s0 : Page) (rs : list Fetch) (r : Fetch) :
  polling (run rs (startTraining job s0)) = true ->
  let s := run rs (startTraining job s0) in
  timer s = Some {| period_ms := 2000 |} /\
  (polling (tick r s) = false <->
   exists progressData,
     r = resolved progressData /\
     Forall (fun p => status p = completed \/ status p = failed)
            (progress progressData)) /\
  (polling (tick r s) = false ->
   st_training (tick r s) = false /\ pollingInterval (tick r s) = None) /\
  (forall e, r = rejected e ->
   polling (tick r s) = true /\ timer (tick r s) = timer s /\
   st_training (tick r s) = st_training s /\
   pollingInterval (tick r s) = pollingInterval s).
Proof.
  intros Hpoll s. subst s.
  set (s := run rs (startTraining job s0)) in *.
  destruct (polling_timer s Hpoll) as [i Hi].
  assert (Hstop : polling (tick r s) = false <-> stops r = true).
  { rewrite polling_tick, Hpoll. simpl. destruct (stops r); simpl; intuition congruence. }
  split; [| split; [| split]].
  - rewrite Hi. pose proof (timer_run rs _ _ Hi) as H0. simpl in H0. congruence.
  - rewrite Hstop. destruct r as [d | e]; simpl.
    + rewrite allCompleted_spec. split.
      * intros H. exists d. split; [reflexivity | exact H].
      * intros (d' & Heq & H). injection Heq as <-. exact H.
    + split; [discriminate |]. intros (d' & Heq & _). discriminate.
  - rewrite Hstop. unfold tick. rewrite Hi.
    destruct r as [d | e]; simpl; [| discriminate].
    intros ->. simpl. split; reflexivity.
  - intros e ->. unfold tick. rewrite Hi. simpl.
    unfold polling in *. simpl. rewrite Hi. repeat split; reflexivity.
Qed.

Definition done_progress : TrainingProgress :=
  {| algorithm := "PPO"; epoch := 5000; totalEpochs := 5000;
     loss := 0.5%Q; reward := 1.5%Q; status := completed |}.

Definition failed_progress : TrainingProgress :=
  {| algorithm := "DQN"; epoch := 0; totalEpochs := 5000;
     loss := 0%Q; reward := 0%Q; status := failed |}.

Definition final_response : TrainingResponse :=
  {| jobId := "job-1"; progress := [done_progress; failed_progress];
     results := [] |}.

Lemma training_poll_stops_iff_all_terminal_witness :
  polling (run [rejected "Network Error"] (startTraining "job-1" initial)) = true /\
  polling (tick (resolved final_response)
             (run [rejected "Network Error"] (startTraining "job-1" initial)))
  = false.
Proof.
  split; [reflexivity |].
  pose proof (training_poll_stops_iff_all_terminal "job-1" initial
                [rejected "Network Error"] (resolved final_response)
                eq_refl) as H.
  simpl in H. destruct H as (_ & H & _). apply H.
  exists final_response. split; [reflexivity |].
  constructor; [left; reflexivity |].
  constructor; [right; reflexivity | constructor].
Defined.

End TrainingPage.

(** ** Progress reporting (training_service.py, trainer.py) *)

Module TrainingBackend.
Import TrainingService.
Local Open Scope list_scope.

(** The progress records of all jobs, one per (job, algorithm), and the
    sequence of updates written so far (newest last). *)
Record Service : Type := {
  store : gmap (string * string) TrainingProgress;
  emitted : list (string * string * TrainingProgress)
}.

Definition empty_service : Service := {| store := ∅; emitted := [] |}.

(** Modelled from the spec: [_update_progress] of training_service.py is
    called in the sources but its body is not part of them; there is "one
    record per (job, algorithm) pair, appended/overwritten as training
    advances". *)
Definition _update_progress (job_id algorithm : string) (epoch total : Z)
    (loss reward : Q) (status : Status) (sv : Service) : Service :=
  let record :=
    {| TrainingService.algorithm := algorithm; epoch := epoch;
       totalEpochs := total; loss := loss; reward := reward;
       status := status |} in
  {| store := <[(job_id, algorithm) := record]> (store sv);
     emitted := emitted sv ++ [(job_id, algorithm, record)] |}.

(** [progress_callback] of training_service.py, closed over [job_id],
    [algorithm] and [total_timesteps]: the actual values are passed on. *)
Definition progress_callback (job_id algorithm : string) (total_timesteps : Z)
    (epoch : Z) (loss reward : Q) (status : Status) (sv : Service) : Service :=
  _update_progress job_id algorithm epoch total_timesteps loss reward status sv.

(** The callback before the fix:
    [current_epoch = int((epoch / total_timesteps) * 1000)] and a total
    of 1000. *)
Definition progress_callback_1000 (job_id algorithm : string)
    (total_timesteps : Z) (epoch : Z) (loss reward : Q) (status : Status)
    (sv : Service) : Service :=
  let current_epoch := Z.quot (epoch * 1000) total_timesteps in
  _update_progress job_id algorithm current_epoch 1000 loss reward status sv.

(** [class ProgressCallback(BaseCallback)] of trainer.py: the fields the
    fragments use. [num_timesteps] is maintained by the learner. *)
Record ProgressCallback : Type := {
  total_timesteps : Z;
  num_timesteps : Z;
  last_loss : Q;
  last_reward : Q
}.

(** [ProgressCallback.__init__] *)
Definition ProgressCallback_init (total_timesteps : Z) : ProgressCallback :=
  {| total_timesteps := total_timesteps; num_timesteps := 0;
     last_loss := 0%Q; last_reward := 0%Q |}.

(** What the learner hands to one reporting [_on_step]: its step counter
    and the rolling averages computed from its logger. *)
Record StepInfo : Type := {
  step_count : Z;
  avg_loss : Q;
  avg_reward : Q
}.

(** [ProgressCallback._on_step]: store the last values, then call
    [callback_fn(epoch=self.num_timesteps, loss=self.last_loss,
    reward=self.last_reward, status="training")]. *)
Definition _on_step
    (callback_fn : Z -> Q -> Q -> Status -> Service -> Service)
    (info : StepInfo) (st : ProgressCallback * Service)
    : ProgressCallback * Service :=
  let cb := {| total_timesteps := total_timesteps (fst st);
               num_timesteps := step_count info;
               last_loss := avg_loss info;
               last_reward := avg_reward info |} in
  (cb, callback_fn (num_timesteps cb) (last_loss cb) (last_reward cb)
         training (snd st)).

(** The evaluation that [train] runs after learning. *)
Record Evaluation : Type := {
  final_reward : Q;
  final_std : Q;
  training_time : Q
}.

(** [DRLTrainer.train]: learning drives [_on_step]; the returned
    dictionary takes [final_loss] from [callback.last_loss] and the
    rewards from the evaluation. *)
Definition train (total : Z)
    (callback_fn : Z -> Q -> Q -> Status -> Service -> Service)
    (steps : list StepInfo) (ev : Evaluation) (sv : Service)
    : gmap string Q * Service :=
  let '(callback, sv') :=
    fold_left (fun st info => _on_step callback_fn info st) steps
              (ProgressCallback_init total, sv) in
  let final_loss := last_loss callback in
  (<["total_steps" := inject_Z total]>
     (<["training_time" := training_time ev]>
        (<["final_reward" := final_reward ev]>
           (<["final_std" := final_std ev]>
              (<["final_loss" := final_loss]>
                 (<["best_reward" := final_reward ev]> ∅))))),
   sv').

(** [dict.get(key, default)] *)
Definition get (d : gmap string Q) (key : string) (dflt : Q) : Q :=
  default dflt (d !! key).

(** The part of [train_algorithm] (training_service.py) that reports
    progress: the initial update, the training with [progress_callback],
    and the update that marks the algorithm completed. *)
Definition train_algorithm (job_id algorithm : string) (total_timesteps : Z)
    (steps : list StepInfo) (ev : Evaluation) (sv : Service) : Service :=
  let sv1 := _update_progress job_id algorithm 0 total_timesteps 0%Q 0%Q
               training sv in
  let '(training_metrics, sv2) :=
    train total_timesteps
          (progress_callback job_id algorithm total_timesteps) steps ev sv1 in
  let final_loss :=
    get training_metrics "final_loss" (get training_metrics "final_std" 0%Q) in
  let final_reward := get training_metrics "final_reward" 0%Q in
  _update_progress job_id algorithm total_timesteps total_timesteps
    final_loss final_reward completed sv2.

(** The record written for one reporting step. *)
Definition step_record (algorithm : string) (total : Z) (info : StepInfo)
    : TrainingProgress :=
  {| TrainingService.algorithm := algorithm; epoch := step_count info;
     totalEpochs := total; loss := avg_loss info; reward := avg_reward info;
     status := training |}.

(** The rolling loss last reported by the callback ([0.0] before the
    first report). *)
Definition rolling_loss (steps : list StepInfo) : Q :=
  match last steps with
  | Some info => avg_loss info
  | None => 0%Q
  end.

Definition rolling_reward (steps : list StepInfo) : Q :=
  match last steps with
  | Some info => avg_reward info
  | None => 0%Q
  end.

(** The updates a run added to the service it started from. *)
Definition updates_since (before after : Service)
    : list (string * string * TrainingProgress) :=
  drop (length (emitted before)) (emitted after).

(** *** Facts about the callback loop *)

Section CallbackLoop.
Variables (job_id algorithm : string) (total : Z).

Let report := progress_callback job_id algorithm total.
Let learn steps st := fold_left (fun st info => _on_step report info st) steps st.

Lemma learn_app steps1 steps2 st :
  learn (steps1 ++ steps2) st = learn steps2 (learn steps1 st).
Proof. unfold learn. apply fold_left_app. Qed.

Lemma learn_emitted steps : forall cb sv,
  emitted (snd (learn steps (cb, sv))) =
  emitted sv ++
  map (fun info => (job_id, algorithm, step_record algorithm total info)) steps.
Proof.
  induction steps as [| info steps IH]; intros cb sv; simpl.
  - now rewrite app_nil_r.
  - unfold _on_step. rewrite IH. simpl. now rewrite <- app_assoc.
Qed.

Lemma learn_other steps key : forall cb sv,
  key <> (job_id, algorithm) ->
  store (snd (learn steps (cb, sv))) !! key = store sv !! key.
Proof.
  induction steps as [| info steps IH]; intros cb sv Hkey; simpl; [reflexivity |].
  unfold _on_step. rewrite IH by exact Hkey. simpl.
  apply lookup_insert_ne. congruence.
Qed.

Lemma learn_last_loss steps : forall cb sv,
  last_loss (fst (learn steps (cb, sv))) =
  match last steps with
  | Some info => avg_loss info
  | None => last_loss cb
  end.
Proof.
  induction steps as [| info steps IH] using rev_ind; intros cb sv;
    [reflexivity |].
  rewrite learn_app, last_snoc. simpl.
  destruct (learn steps (cb, sv)); reflexivity.
Qed.

Lemma train_metrics steps ev sv :
  let d := fst (train total report steps ev sv) in
  d !! "final_loss" = Some (rolling_loss steps) /\
  d !! "final_reward" = Some (final_reward ev).
Proof.
  unfold train.
  pose proof (learn_last_loss steps (ProgressCallback_init total) sv) as Hl.
  unfold learn in Hl.
  destruct (fold_left _ steps _) as [callback sv'] eqn:E. simpl in *.
  split.
  - rewrite !lookup_insert_ne by discriminate.
    rewrite lookup_insert_eq. unfold rolling_loss. now rewrite Hl.
  - rewrite !lookup_insert_ne by discriminate.
    now rewrite lookup_insert_eq.
Qed.

Lemma train_service steps ev sv :
  snd (train total report steps ev sv) =
  snd (learn steps (ProgressCallback_init total, sv)).
Proof.
  unfold train, learn. destruct (fold_left _ steps _); reflexivity.
Qed.

End CallbackLoop.

(** The record that [train_algorithm] writes first. *)
Definition initial_record (algorithm : string) (total : Z) : TrainingProgress :=
  {| TrainingService.algorithm := algorithm; epoch := 0;
     totalEpochs := total; loss := 0%Q; reward := 0%Q; status := training |}.

(** The record that [train_algorithm] writes last. *)
Definition terminal_record (algorithm : string) (total : Z)
    (steps : list StepInfo) (ev : Evaluation) : TrainingProgress :=
  {| TrainingService.algorithm := algorithm; epoch := total;
     totalEpochs := total; loss := rolling_loss steps;
     reward := final_reward ev; status := completed |}.

Lemma train_algorithm_unfold job_id algorithm total steps ev sv :
  train_algorithm job_id algorithm total steps ev sv =
  let sv1 := _update_progress job_id algorithm 0 total 0%Q 0%Q training sv in
  let sv2 := snd (fold_left
               (fun st info =>
                  _on_step (progress_callback job_id algorithm total) info st)
               steps (ProgressCallback_init total, sv1)) in
  {| store := <[(job_id, algorithm) :=
                terminal_record algorithm total steps ev]> (store sv2);
     emitted := emitted sv2 ++
                [(job_id, algorithm, terminal_record algorithm total steps ev)] |}.
Proof.
  unfold train_algorithm.
  set (sv1 := _update_progress job_id algorithm 0 total 0%Q 0%Q training sv).
  pose proof (train_metrics job_id algorithm total steps ev sv1) as [Hl Hr].
  pose proof (train_service job_id algorithm total steps ev sv1) as Hs.
  destruct (train total _ steps ev sv1) as [d sv2] eqn:E. simpl in *.
  unfold get. rewrite Hl, Hr. simpl. subst sv2. reflexivity.
Qed.

Lemma train_algorithm_updates job_id algorithm total steps ev sv :
  updates_since sv (train_algorithm job_id algorithm total steps ev sv) =
  (job_id, algorithm, initial_record algorithm total)
  :: map (fun info => (job_id, algorithm, step_record algorithm total info))
       steps
  ++ [(job_id, algorithm, terminal_record algorithm total steps ev)].
Proof.
  rewrite train_algorithm_unfold. unfold updates_since. simpl.
  rewrite learn_emitted. simpl.
  rewrite <- !app_assoc. rewrite drop_app_length. reflexivity.
Qed.

Lemma train_algorithm_other job_id algorithm total steps ev sv key :
  key <> (job_id, algorithm) ->
  store (train_algorithm job_id algorithm total steps ev sv) !! key =
  store sv !! key.
Proof.
  intros Hkey. rewrite train_algorithm_unfold. simpl.
  rewrite lookup_insert_ne by congruence.
  rewrite learn_other by exact Hkey. simpl.
  apply lookup_insert_ne. congruence.
Qed.

(** A progress bar fed by the rescaled callback: 2500 of 5000 steps
    arrive as 500/1000. *)
Example rescaled_callback_2500_of_5000 :
  emitted (progress_callback_1000 "job" "PPO" 5000 2500 0.5%Q 1%Q training
             empty_service) =
  [("job", "PPO",
    {| TrainingService.algorithm := "PPO"; epoch := 500; totalEpochs := 1000;
       loss := 0.5%Q; reward := 1%Q; status := training |})].
Proof. reflexivity. Qed.

(** The same report through the callback as it is now: 2500/5000, which
    the page shows as 50%; the run ends with 5000/5000. *)
Example actual_callback_2500_of_5000 :
  let half := {| step_count := 2500; avg_loss := 0.5%Q; avg_reward := 1%Q |} in
  let ev := {| final_reward := 0.04%Q; final_std := 0.01%Q;
               training_time := 60%Q |} in
  map (fun u => (TrainingPage.format (snd u), TrainingPage.percent (snd u)))
      (emitted (train_algorithm "job" "PPO" 5000 [half] ev empty_service)) =
  [((0, 5000), 0); ((2500, 5000), 50); ((5000, 5000), 100)].
Proof. vm_compute. reflexivity. Qed.

(** C4: the progress updates of a training run are, in order, the initial
    one (0 of total_timesteps), one per reporting step of the learner
    carrying the learner's own step counter, and the closing one
    (total_timesteps of total_timesteps); every one of them carries the
    configured total_timesteps as its total, none is rescaled, and for a
    reporting step the fraction epoch/totalEpochs read by the client is
    the learner's step counter over the requested timesteps. *)
Theorem progress_updates_carry_actual_steps
    (job_id algorithm : string) (total : Z) (steps : list StepInfo)
    (ev : Evaluation) (sv : Service) :
  let updates :=
    updates_since sv (train_algorithm job_id algorithm total steps ev sv) in
  updates =
    (job_id, algorithm, initial_record algorithm total)
    :: map (fun info => (job_id, algorithm, step_record algorithm total info))
         steps
    ++ [(job_id, algorithm, terminal_record algorithm total steps ev)] /\
  Forall (fun u => totalEpochs (snd u) = total) updates /\
  (forall i info, steps !! i = Some info ->
   exists record,
     updates !! S i = Some (job_id, algorithm, record) /\
     epoch record = step_count info /\
     totalEpochs record = total /\
     TrainingPage.format record = (step_count info, total) /\
     TrainingPage.fraction record =
     (inject_Z (step_count info) / inject_Z total)%Q).
Proof.
  intros updates. subst updates. rewrite train_algorithm_updates.
  split; [reflexivity | split].
  - constructor; [reflexivity |]. apply Forall_app. split.
    + apply Forall_forall. intros u Hu.
      apply list_elem_of_In, in_map_iff in Hu.
      destruct Hu as (info & <- & _). reflexivity.
    + constructor; [reflexivity | constructor].
  - intros i info Hi. exists (step_record algorithm total info).
    split; [| repeat split].
    simpl. rewrite lookup_app_l.
    + rewrite list_lookup_fmap. change (map ?f ?l) with (f <$> l).
      now rewrite Hi.
    + rewrite length_map. apply lookup_lt_is_Some. eauto.
Qed.

(** The specification's sentence on the terminal record: it keeps both
    rolling values last reported by the callback. *)
Definition terminal_retains_rolling_values : Prop :=
  forall job_id algorithm total steps ev sv record,
    store (train_algorithm job_id algorithm total steps ev sv)
      !! (job_id, algorithm) = Some record ->
    loss record = rolling_loss steps /\ reward record = rolling_reward steps.

Definition report_100 : StepInfo :=
  {| step_count := 100; avg_loss := 0.0234%Q; avg_reward := 1500.23%Q |}.

Definition evaluation_12 : Evaluation :=
  {| final_reward := 0.12%Q; final_std := 0.03%Q; training_time := 42%Q |}.

(** The terminal record of a run whose last rolling reward was 1500.23
    and whose evaluation returned 0.12 shows 0.12. *)
Lemma terminal_reward_is_evaluation_reward :
  ~ terminal_retains_rolling_values.
Proof.
  intros H.
  destruct (H "job" "PPO" 1000 [report_100] evaluation_12 empty_service
              (terminal_record "PPO" 1000 [report_100] evaluation_12))
    as [_ Hr].
  - rewrite train_algorithm_unfold. simpl. apply lookup_insert_eq.
  - discriminate Hr.
Qed.

(** The reward of the terminal record is the one of the final evaluation
    ([callback.last_reward] is stored but not read by [train]). *)
Lemma terminal_record_reward job_id algorithm total steps ev sv :
  reward <$> store (train_algorithm job_id algorithm total steps ev sv)
               !! (job_id, algorithm) = Some (final_reward ev).
Proof.
  rewrite train_algorithm_unfold. simpl. now rewrite lookup_insert_eq.
Qed.

(** C7 (as the code has it): a training run writes no record but its own
    (those of other pairs stay as they were); of its updates only the
    last one is terminal, and the record left in the store is that
    terminal one; it keeps the rolling loss last reported by the callback
    (0.0 only if nothing was ever reported). *)
Theorem terminal_record_keeps_last_loss
    (job_id algorithm : string) (total : Z) (steps : list StepInfo)
    (ev : Evaluation) (sv : Service) :
  let sv' := train_algorithm job_id algorithm total steps ev sv in
  (forall key, key <> (job_id, algorithm) ->
   store sv' !! key = store sv !! key) /\
  (exists earlier record,
     updates_since sv sv' = earlier ++ [(job_id, algorithm, record)] /\
     Forall (fun u => status (snd u) = training) earlier /\
     store sv' !! (job_id, algorithm) = Some record /\
     status record = completed /\
     loss record = rolling_loss steps) /\
  (forall info, last steps = Some info ->
   exists record,
     store sv' !! (job_id, algorithm) = Some record /\
     loss record = avg_loss info).
Proof.
  intros sv'. subst sv'. split; [| split].
  - intros key Hkey. now apply train_algorithm_other.
  - exists ((job_id, algorithm, initial_record algorithm total)
            :: map (fun info =>
                      (job_id, algorithm, step_record algorithm total info))
                 steps),
           (terminal_record algorithm total steps ev).
    split; [apply train_algorithm_updates | split; [| split]].
    + constructor; [reflexivity |]. apply Forall_forall. intros u Hu.
      apply list_elem_of_In, in_map_iff in Hu.
      destruct Hu as (info & <- & _). reflexivity.
    + rewrite train_algorithm_unfold. simpl. apply lookup_insert_eq.
    + repeat split.
  - intros info Hlast. exists (terminal_record algorithm total steps ev).
    split.
    + rewrite train_algorithm_unfold. simpl. apply lookup_insert_eq.
    + simpl. unfold rolling_loss. now rewrite Hlast.
Qed.

End TrainingBackend.

(** ** The start endpoint and the job run (routers/training.py) *)

Module TrainingRouter.
Import TrainingService TrainingBackend.
Local Open Scope list_scope.

(** [MIN_TIMESTEPS_RECOMMENDED] as FIXES_APPLIED.md quotes it together
    with the loop; the optimisation note raised the numbers later (see
    [Advisory.MIN_TIMESTEPS_RECOMMENDED_optimized]). *)
Definition MIN_TIMESTEPS_RECOMMENDED : gmap string Z :=
  list_to_map
    [("PPO", 5000); ("DQN", 5000); ("A2C", 3000); ("SAC", 8000); ("TD3", 8000)].

(** [MIN_TIMESTEPS_RECOMMENDED.get(algo, 3000)] *)
Definition min_steps (algo : string) : Z :=
  default 3000 (MIN_TIMESTEPS_RECOMMENDED !! algo).

(** Lines of the log. [warning algo min_steps total_timesteps] is the
    line written by [logger.warning] in the advisory loop; [error] is a
    failure recorded by the job run. *)
Inductive LogLine : Type :=
| warning (algo : string) (min_steps total_timesteps : Z)
| error (algo : string) (text : string).

(** The advisory loop:
    [for algo in algorithms: ... if total_timesteps < min_steps:
    logger.warning(...)]. It has no other effect and no exit. *)
Definition check_timesteps (algorithms : list string) (total_timesteps : Z)
    (log : list LogLine) : list LogLine :=
  fold_left
    (fun log algo =>
       if (total_timesteps <? min_steps algo)%Z
       then log ++ [warning algo (min_steps algo) total_timesteps]
       else log)
    algorithms log.








(** *** The advisory loop *)

Lemma check_timesteps_app algorithms1 algorithms2 total log0 :
  check_timesteps (algorithms1 ++ algorithms2) total log0 =
  check_timesteps algorithms2 total (check_timesteps algorithms1 total log0).
Proof. unfold check_timesteps. apply fold_left_app. Qed.


(** *** The job run *)










End TrainingRouter.

(** ** Evaluation on the test partition (training_service.py, trainer.py) *)

Module Evaluation.
Local Open Scope list_scope.
Local Open Scope Q_scope.

(** Modelled from the spec: stock_env.py is not part of the sources.
    The environment holds the PortfolioState "{cash, holdings,
    day_index}", the close prices of its partition, [initial_amount],
    [max_step], and the bookkeeping field [cumulative_returns]. *)
Record StockTradingEnv : Type := {
  initial_amount : Q;
  cash : Q;
  holdings : list Q;
  day : nat;
  close : list (list Q);
  max_step : nat;
  cumulative_returns : Q
}.

(** The close prices of the current day, one per symbol. *)
Definition prices (env : StockTradingEnv) : list Q :=
  nth (day env) (close env) [].

(** [Σ holdings[s] × close_price[s, day_index]] *)
Fixpoint position_value (holdings prices : list Q) : Q :=
  match holdings, prices with
  | h :: holdings', p :: prices' => h * p + position_value holdings' prices'
  | _, _ => 0
  end.

(** Modelled from the spec: [get_total_asset] is called in the sources
    but defined in stock_env.py; "total asset value = cash +
    Σ(holdings[s] × close_price[s, day_index])". *)
Definition get_total_asset (env : StockTradingEnv) : Q :=
  cash env + position_value (holdings env) (prices env).

(** The evaluation after the fix (both [_evaluate] and
    [_evaluate_on_test]):
    [final_value = env_unwrapped.get_total_asset()] and
    [return_rate = (final_value - env_unwrapped.initial_amount) /
    env_unwrapped.initial_amount]. The two [hasattr] tests that guard
    these lines hold for the trading environment, which has both
    attributes. *)
Definition return_rate (env_unwrapped : StockTradingEnv) : Q :=
  let final_value := get_total_asset env_unwrapped in
  (final_value - initial_amount env_unwrapped) / initial_amount env_unwrapped.

(** The evaluation before the fix:
    [cumulative_return = getattr(env_unwrapped, 'cumulative_returns', 1.0)]
    and [returns.append(cumulative_return - 1.0)]. *)
Definition return_rate_before_fix (env_unwrapped : StockTradingEnv) : Q :=
  let cumulative_return := cumulative_returns env_unwrapped in
  cumulative_return - 1.

Definition with_cumulative_returns (c : Q) (env : StockTradingEnv)
    : StockTradingEnv :=
  {| initial_amount := initial_amount env; cash := cash env;
     holdings := holdings env; day := day env; close := close env;
     max_step := max_step env; cumulative_returns := c |}.

Section Episode.
(** The reallocation of the portfolio by one action (new cash and
    holdings) and the policy are those of the environment and of the
    agent under evaluation. *)
Variable trade : StockTradingEnv -> list Q -> Q * list Q.
Variable predict : StockTradingEnv -> list Q.

(** Modelled from the spec: [reset] puts the state back to "{cash =
    initial_amount, holdings = 0, day_index = 0}". *)
Definition reset (env : StockTradingEnv) : StockTradingEnv :=
  {| initial_amount := initial_amount env; cash := initial_amount env;
     holdings := map (fun _ => 0) (holdings env); day := 0;
     close := close env; max_step := max_step env;
     cumulative_returns := 1 |}.

Definition done (env : StockTradingEnv) : bool :=
  (max_step env <=? day env)%nat.

(** Modelled from the spec: [step] trades, "advance[s] day_index by
    1", and "done = (day_index >= max_step)"; [cumulative_returns] is
    written when the episode ends (A2C_ZERO_RETURN_FIX.md: it is
    updated only when terminal is true). *)
Definition step (env : StockTradingEnv) (action : list Q) : StockTradingEnv :=
  let '(cash', holdings') := trade env action in
  let moved :=
    {| initial_amount := initial_amount env; cash := cash';
       holdings := holdings'; day := S (day env); close := close env;
       max_step := max_step env;
       cumulative_returns := cumulative_returns env |} in
  if done moved
  then with_cumulative_returns
         (get_total_asset moved / initial_amount moved) moved
  else moved.

(** The replay loop: [while not done: action = predict(obs);
    obs, reward, done, info = env.step(action)]. *)
Fixpoint episode (fuel : nat) (env : StockTradingEnv)
    : option StockTradingEnv :=
  match fuel with
  | O => None
  | S fuel' =>
      let env' := step env (predict env) in
      if done env' then Some env' else episode fuel' env'
  end.

(** [_evaluate_on_test]: one episode on the test environment, then the
    return rate read from the environment. *)
Definition _evaluate_on_test (fuel : nat) (test_env : StockTradingEnv)
    : option Q :=
  match episode fuel (reset test_env) with
  | Some env_unwrapped => Some (return_rate env_unwrapped)
  | None => None
  end.

Lemma step_day env action : day (step env action) = S (day env).
Proof.
  unfold step. destruct (trade env action) as [c h].
  destruct (done _); reflexivity.
Qed.

Lemma step_max_step env action : max_step (step env action) = max_step env.
Proof.
  unfold step. destruct (trade env action) as [c h].
  destruct (done _); reflexivity.
Qed.

Lemma step_initial_amount env action :
  initial_amount (step env action) = initial_amount env.
Proof.
  unfold step. destruct (trade env action) as [c h].
  destruct (done _); reflexivity.
Qed.

(** The loop ends: [max_step - day] steps are enough, and at least one
    is made. *)
Lemma episode_terminates : forall fuel env,
  (1 <= fuel)%nat -> (max_step env - day env <= fuel)%nat ->
  exists env',
    episode fuel env = Some env' /\
    done env' = true /\
    initial_amount env' = initial_amount env /\
    day env' = Nat.max (S (day env)) (max_step env).
Proof.
  induction fuel as [| fuel IH]; intros env H1 Hfuel; [lia |].
  simpl. destruct (done (step env (predict env))) eqn:Hd.
  - eexists. split; [reflexivity |]. split; [exact Hd |].
    split; [apply step_initial_amount |].
    unfold done in Hd. apply Nat.leb_le in Hd.
    rewrite step_day, step_max_step in *. lia.
  - unfold done in Hd. apply Nat.leb_gt in Hd.
    rewrite step_day, step_max_step in Hd.
    destruct (IH (step env (predict env))) as (env' & He & Hdone & Hi & Hday).
    + lia.
    + rewrite step_day, step_max_step. lia.
    + exists env'. split; [exact He |]. split; [exact Hdone |].
      rewrite Hi, Hday, step_initial_amount, step_day, step_max_step.
      split; [reflexivity | lia].
Qed.

End Episode.

Lemma return_rate_ignores_cumulative_returns c env :
  return_rate (with_cumulative_returns c env) = return_rate env.
Proof. reflexivity. Qed.

(** Right after the step that ends an episode the accumulator agrees with
    the recomputed rate; it is the only moment at which it is written. *)
Lemma accumulator_agrees_at_terminal_step trade env action :
  ~ initial_amount env == 0 ->
  done (step trade env action) = true ->
  return_rate_before_fix (step trade env action) ==
  return_rate (step trade env action).
Proof.
  intros Hnz. unfold step. destruct (trade env action) as [c h].
  match goal with
  | |- context [if done ?moved then _ else _] => destruct (done moved) eqn:Hd
  end; intros Hdone.
  - unfold return_rate_before_fix, return_rate, get_total_asset, prices.
    simpl. generalize (position_value h (nth (S (day env)) (close env) [])).
    intros p. field. exact Hnz.
  - rewrite Hd in Hdone. discriminate.
Qed.

(** An environment read before its episode ended (or after a wrapper
    reset it): the accumulator still holds 1.0 while the portfolio is
    worth 10% more than the initial amount. *)
Definition stale_env : StockTradingEnv :=
  {| initial_amount := 1000000; cash := 0; holdings := [10000]; day := 1;
     close := [[100]; [110]; [120]]; max_step := 2;
     cumulative_returns := 1 |}.

Example stale_accumulator_reports_zero :
  return_rate_before_fix stale_env == 0 /\ return_rate stale_env == 1 # 10.
Proof. split; reflexivity. Qed.

(** C1: whatever the trades and the policy, the evaluation of a test
    environment (with a non-zero initial amount) ends, and the return
    rate it reports is (final total asset value - initial amount) /
    initial amount, the total asset value being cash plus holdings times
    close prices of the final PortfolioState; the value of
    [cumulative_returns] plays no part in it. *)
Theorem final_return_rate_recomputed_from_portfolio
    (trade : StockTradingEnv -> list Q -> Q * list Q)
    (predict : StockTradingEnv -> list Q)
    (test_env : StockTradingEnv) (fuel : nat) :
  ~ initial_amount test_env == 0 ->
  (1 <= fuel)%nat -> (max_step test_env <= fuel)%nat ->
  exists final,
    episode trade predict fuel (reset test_env) = Some final /\
    done final = true /\
    _evaluate_on_test trade predict fuel test_env =
    Some ((cash final + position_value (holdings final) (prices final)
           - initial_amount test_env) / initial_amount test_env) /\
    forall c, return_rate (with_cumulative_returns c final) =
              return_rate final.
Proof.
  intros _ H1 Hfuel.
  destruct (episode_terminates trade predict fuel (reset test_env) H1)
    as (final & He & Hdone & Hi & _); [simpl; lia |].
  exists final. split; [exact He | split; [exact Hdone | split]].
  - unfold _evaluate_on_test. rewrite He. unfold return_rate, get_total_asset.
    now rewrite Hi.
  - intros c. apply return_rate_ignores_cumulative_returns.
Qed.

(** Everything into the single stock on the first day. *)
Definition all_in (env : StockTradingEnv) (action : list Q) : Q * list Q :=
  match prices env, day env with
  | p :: _, O => (0, [cash env / p])
  | _, _ => (cash env, holdings env)
  end.

Definition rising_market : StockTradingEnv :=
  {| initial_amount := 1000000; cash := 1000000; holdings := [0]; day := 0;
     close := [[100]; [105]; [110]]; max_step := 2;
     cumulative_returns := 1 |}.

Lemma final_return_rate_recomputed_from_portfolio_witness :
  ~ initial_amount rising_market == 0 /\
  exists r,
    _evaluate_on_test all_in (fun _ => [1]) 2 rising_market = Some r /\
    r == 1 # 10.
Proof.
  assert (Hnz : ~ initial_amount rising_market == 0) by discriminate.
  split; [exact Hnz |].
  destruct (final_return_rate_recomputed_from_portfolio all_in (fun _ => [1])
              rising_market 2 Hnz (le_S _ _ (le_n 1)) (le_n 2))
    as (final & He & _ & Hr & _).
  vm_compute in He. injection He as <-.
  eexists. split; [exact Hr |]. reflexivity.
Defined.

End Evaluation.

(** ** Sums of real vectors ([np.sum]) *)

Module RealLists.
Local Open Scope list_scope.
Local Open Scope R_scope.

Fixpoint total (xs : list R) : R :=
  match xs with
  | [] => 0
  | x :: xs' => x + total xs'
  end.

Lemma total_nonneg xs : Forall (fun x => 0 <= x) xs -> 0 <= total xs.
Proof.
  induction 1 as [| x xs Hx _ IH]; simpl; lra.
Qed.

Lemma total_repeat c n : total (repeat c n) = INR n * c.
Proof.
  induction n as [| n IH]; [simpl; lra |].
  rewrite S_INR. simpl repeat. simpl total. rewrite IH. lra.
Qed.

Lemma total_scale {A : Type} (f : A -> R) k xs :
  total (map (fun x => k * f x) xs) = k * total (map f xs).
Proof.
  induction xs as [| x xs IH]; simpl; [lra | rewrite IH; lra].
Qed.

Lemma total_pos xs :
  xs <> [] -> Forall (fun x => 0 < x) xs -> 0 < total xs.
Proof.
  intros Hne H. destruct H as [| x xs Hx Hxs]; [congruence |].
  simpl. assert (0 <= total xs); [| lra].
  apply total_nonneg. eapply Forall_impl; [exact Hxs |].
  simpl. intros; lra.
Qed.

End RealLists.

(** ** Action normalisation (stock_env.py, discrete_wrapper.py) *)

Module ActionSpace.
Import RealLists.
Local Open Scope list_scope.
Local Open Scope R_scope.

(** Softmax of the raw network output. *)
Definition softmax (raw : list R) : list R :=
  map (fun x => / total (map exp raw) * exp x) raw.

(** The share of the portfolio kept in cash by default, 5%. *)
Definition cash_buffer : R := 5 / 100.

(** Modelled from the spec: stock_env.py is not part of the sources.
    "Raw network output is passed through softmax ... to weights,
    guaranteeing Σweights ≤ 1 with an implicit cash residual (default ≥
    5% cash buffer)": the softmax shares are applied to the part of the
    portfolio outside the cash buffer. *)
Definition target_weights (raw : list R) : list R :=
  map (fun w => (1 - cash_buffer) * w) (softmax raw).

(** The implicit cash weight: what the symbol weights leave of 1. *)
Definition cash_weight (raw : list R) : R := 1 - total (target_weights raw).

(** The alphabet of the discrete-action algorithms (CHANGELOG.md:
    "Strong Sell (-1.0), Hold (0.0), Strong Buy (+1.0)"). *)
Inductive Signal : Type :=
| strong_sell
| hold
| strong_buy.

Definition signal_value (s : Signal) : R :=
  match s with
  | strong_sell => -1
  | hold => 0
  | strong_buy => 1
  end.

Definition signal_of_digit (d : nat) : Signal :=
  match d with
  | O => strong_sell
  | S O => hold
  | _ => strong_buy
  end.

(** Modelled from the spec: discrete_wrapper.py is not part of the
    sources. One of the [3^N] discrete actions is read as [N] base-3
    digits, one signal per symbol. *)
Fixpoint decode (n_stocks : nat) (action : nat) : list Signal :=
  match n_stocks with
  | O => []
  | S n => signal_of_digit (action mod 3) :: decode n (action / 3)
  end.

(** The weights a discrete action leads to: its signals are the raw
    action handed to the environment. *)
Definition discrete_weights (n_stocks action : nat) : list R :=
  target_weights (map signal_value (decode n_stocks action)).

Lemma decode_length n : forall action, length (decode n action) = n.
Proof. induction n as [| n IH]; intros action; simpl; [| rewrite IH]; reflexivity. Qed.

Lemma exp_total_pos raw : raw <> [] -> 0 < total (map exp raw).
Proof.
  intros Hne. apply total_pos.
  - destruct raw; [congruence | discriminate].
  - apply Forall_forall. intros y Hy.
    apply list_elem_of_In, in_map_iff in Hy.
    destruct Hy as (x & <- & _). apply exp_pos.
Qed.

Lemma softmax_nonneg raw : Forall (fun w => 0 <= w) (softmax raw).
Proof.
  apply Forall_forall. intros w Hw.
  apply list_elem_of_In, in_map_iff in Hw. destruct Hw as (x & <- & Hx).
  assert (Hne : raw <> []) by (destruct raw; [destruct Hx | discriminate]).
  pose proof (exp_total_pos raw Hne) as Hpos.
  pose proof (exp_pos x) as Hex.
  apply Rmult_le_pos; [| lra].
  left. now apply Rinv_0_lt_compat.
Qed.

Lemma softmax_total raw : raw <> [] -> total (softmax raw) = 1.
Proof.
  intros Hne. unfold softmax. rewrite total_scale.
  apply Rinv_l. pose proof (exp_total_pos raw Hne). lra.
Qed.

Lemma target_weights_total raw :
  raw <> [] -> total (target_weights raw) = 1 - cash_buffer.
Proof.
  intros Hne. unfold target_weights.
  rewrite (total_scale (fun w => w)), map_id, softmax_total by exact Hne.
  lra.
Qed.

Lemma target_weights_feasible raw :
  Forall (fun w => 0 <= w) (target_weights raw) /\
  total (target_weights raw) <= 1 /\
  5 / 100 <= cash_weight raw.
Proof.
  split.
  - apply Forall_forall. intros w Hw.
    apply list_elem_of_In, in_map_iff in Hw. destruct Hw as (v & <- & Hv).
    pose proof (softmax_nonneg raw) as Hs. rewrite Forall_forall in Hs.
    specialize (Hs v (proj2 (list_elem_of_In _ _) Hv)).
    unfold cash_buffer. nra.
  - unfold cash_weight. destruct raw as [| x raw].
    + simpl. lra.
    + rewrite target_weights_total by discriminate. unfold cash_buffer. lra.
Qed.

(** C2: for every raw action the target weights are all at least 0 and
    sum to at most 1, leaving a cash weight of at least 5% (exactly 5%
    as soon as there is a symbol); the same holds for the weights of
    every action of the discrete alphabet strong sell / hold / strong
    buy, which has one weight per symbol. *)
Theorem target_weights_within_budget :
  (forall raw,
     Forall (fun w => 0 <= w) (target_weights raw) /\
     total (target_weights raw) <= 1 /\
     5 / 100 <= cash_weight raw /\
     (raw <> [] -> total (target_weights raw) = 95 / 100)) /\
  (forall n_stocks action,
     length (discrete_weights n_stocks action) = n_stocks /\
     Forall (fun w => 0 <= w) (discrete_weights n_stocks action) /\
     total (discrete_weights n_stocks action) <= 1 /\
     5 / 100 <= 1 - total (discrete_weights n_stocks action)).
Proof.
  split.
  - intros raw. destruct (target_weights_feasible raw) as (H0 & H1 & Hc).
    repeat split; auto.
    intros Hne. rewrite target_weights_total by exact Hne.
    unfold cash_buffer. lra.
  - intros n_stocks action. unfold discrete_weights.
    destruct (target_weights_feasible
                (map signal_value (decode n_stocks action)))
      as (H0 & H1 & Hc).
    repeat split; auto.
    unfold target_weights, softmax.
    now rewrite !length_map, decode_length.
Qed.

(** Two symbols with equal raw outputs get 47.5% each; the discrete
    action 5 of two symbols reads (strong buy, hold). *)
Lemma target_weights_within_budget_witness :
  target_weights [0; 0] = [475 / 1000; 475 / 1000] /\
  cash_weight [0; 0] = 5 / 100 /\
  decode 2 5 = [strong_buy; hold] /\
  total (discrete_weights 2 5) = 95 / 100.
Proof.
  destruct target_weights_within_budget as [Hraw Hdiscrete].
  assert (Ht : target_weights [0; 0] = [475 / 1000; 475 / 1000]).
  { unfold target_weights, softmax, cash_buffer. simpl. rewrite exp_0.
    repeat f_equal; field. }
  split; [exact Ht | split; [| split; [reflexivity |]]].
  - unfold cash_weight. rewrite Ht. simpl. lra.
  - destruct (Hraw (map signal_value (decode 2 5))) as (_ & _ & _ & H).
    apply H. discriminate.
Defined.

End ActionSpace.

(** ** Aggregate metrics (training_service.py, backtest_service.py) *)

Module Metrics.
Import RealLists.
Local Open Scope list_scope.
Local Open Scope R_scope.

(** A float division as far as its result is a number: a zero divisor
    gives none ([ZeroDivisionError] for Python floats, [nan] or [inf]
    with a warning for numpy's). *)
Definition divide (x y : R) : option R :=
  if Req_dec_T y 0 then None else Some (x / y).

(** The arithmetic mean of a non-empty series. *)
Definition mean (xs : list R) : R := total xs / INR (length xs).

(** The mean of the squared deviations of a non-empty series. *)
Definition variance (xs : list R) : R :=
  mean (map (fun x => (x - mean xs) * (x - mean xs)) xs).

(** The standard deviation of a non-empty series. *)
Definition std (xs : list R) : R := sqrt (variance xs).

(** [np.mean]: the sum divided by the length; no number for the empty
    series. *)
Definition np_mean (xs : list R) : option R :=
  divide (total xs) (INR (length xs)).

(** [np.std]: the root of the mean of the squared deviations from the
    mean. *)
Definition np_std (xs : list R) : option R :=
  match np_mean xs with
  | Some m =>
      match np_mean (map (fun x => (x - m) * (x - m)) xs) with
      | Some v => Some (sqrt v)
      | None => None
      end
  | None => None
  end.

(** Modelled from the spec: [_calculate_sharpe_ratio] is named in
    IMPLEMENTATION_COMPLETE.md but its body is not part of the sources;
    the Sharpe ratio is "mean daily return / std daily return × √252,
    guarding against zero-variance by returning 0 rather than dividing
    by zero". [None] stands for every outcome that is not a number: an
    exception, [nan] or [inf]. *)
Definition _calculate_sharpe_ratio (returns : list R) : option R :=
  match np_mean returns, np_std returns with
  | Some m, Some s =>
      if Req_dec_T s 0
      then Some 0
      else match divide m s with
           | Some ratio => Some (ratio * sqrt 252)
           | None => None
           end
  | _, _ => None
  end.

(** The same computation without the guard: the formula alone. *)
Definition sharpe_ratio_unguarded (returns : list R) : option R :=
  match np_mean returns, np_std returns with
  | Some m, Some s =>
      match divide m s with
      | Some ratio => Some (ratio * sqrt 252)
      | None => None
      end
  | _, _ => None
  end.

Lemma divide_zero x : divide x 0 = None.
Proof. unfold divide. destruct (Req_dec_T 0 0); [reflexivity | lra]. Qed.

Lemma divide_nonzero x y : y <> 0 -> divide x y = Some (x / y).
Proof.
  intros Hy. unfold divide. destruct (Req_dec_T y 0); [lra | reflexivity].
Qed.

Lemma np_mean_nil : np_mean [] = None.
Proof. unfold np_mean. simpl. apply divide_zero. Qed.

Lemma np_mean_cons xs : xs <> [] -> np_mean xs = Some (mean xs).
Proof.
  intros Hxs. unfold np_mean, mean. apply divide_nonzero.
  apply not_0_INR. destruct xs; [contradiction | simpl; lia].
Qed.

Lemma np_std_cons xs : xs <> [] -> np_std xs = Some (std xs).
Proof.
  intros Hxs. unfold np_std. rewrite (np_mean_cons xs Hxs).
  rewrite np_mean_cons by (destruct xs; [contradiction | discriminate]).
  reflexivity.
Qed.

Lemma mean_repeat c n : (0 < n)%nat -> mean (repeat c n) = c.
Proof.
  intros Hn. unfold mean. rewrite total_repeat, repeat_length.
  field. apply not_0_INR. lia.
Qed.

Lemma variance_nonneg xs : 0 <= variance xs.
Proof.
  unfold variance, mean at 1. rewrite length_map.
  destruct xs as [| x xs]; [simpl; lra |].
  apply Rmult_le_pos.
  - apply total_nonneg. apply Forall_forall. intros y Hy.
    apply list_elem_of_In, in_map_iff in Hy.
    destruct Hy as (z & <- & _). exact (Rle_0_sqr _).
  - left. apply Rinv_0_lt_compat. apply lt_0_INR. simpl. lia.
Qed.

Lemma variance_repeat c n : (0 < n)%nat -> variance (repeat c n) = 0.
Proof.
  intros Hn. unfold variance. rewrite (mean_repeat c n Hn).
  assert (Hmap : map (fun x => (x - c) * (x - c)) (repeat c n) = repeat 0 n).
  { clear Hn. induction n as [| m IH]; [reflexivity |].
    simpl. rewrite IH. f_equal. lra. }
  rewrite Hmap. now apply mean_repeat.
Qed.

Lemma std_zero_iff xs : std xs = 0 <-> variance xs = 0.
Proof.
  unfold std. split.
  - apply sqrt_eq_0, variance_nonneg.
  - intros ->. apply sqrt_0.
Qed.

Lemma positive_variance_not_nil xs : 0 < variance xs -> xs <> [].
Proof. intros H ->. unfold variance, mean in H. simpl in H. lra. Qed.

(** C6: on a non-empty series of daily returns without variance (every
    constant series, the constant-zero one among them) the Sharpe ratio
    computation returns the number 0, where the formula alone would
    divide by zero and return no number; a series has positive
    variance otherwise, its standard deviation is then positive, and
    the computation returns mean / std × √252; so it returns a number
    on every non-empty series. *)
Theorem sharpe_ratio_guards_zero_variance :
  (forall returns, returns <> [] -> variance returns = 0 ->
   _calculate_sharpe_ratio returns = Some 0 /\
   sharpe_ratio_unguarded returns = None) /\
  (forall c n, (0 < n)%nat ->
   _calculate_sharpe_ratio (repeat c n) = Some 0) /\
  (forall n, (0 < n)%nat -> _calculate_sharpe_ratio (repeat 0 n) = Some 0) /\
  (forall returns, variance returns = 0 \/ 0 < variance returns) /\
  (forall returns, 0 < variance returns ->
   0 < std returns /\
   _calculate_sharpe_ratio returns =
   Some (mean returns / std returns * sqrt 252)) /\
  (forall returns, returns <> [] ->
   exists ratio, _calculate_sharpe_ratio returns = Some ratio).
Proof.
  assert (Hzero : forall returns, returns <> [] -> variance returns = 0 ->
                  _calculate_sharpe_ratio returns = Some 0 /\
                  sharpe_ratio_unguarded returns = None).
  { intros returns Hne Hv.
    unfold _calculate_sharpe_ratio, sharpe_ratio_unguarded.
    rewrite (np_mean_cons returns Hne), (np_std_cons returns Hne).
    assert (Hs : std returns = 0) by now apply std_zero_iff.
    rewrite Hs, divide_zero.
    destruct (Req_dec_T 0 0) as [_ | Hne0]; [| lra]. split; reflexivity. }
  assert (Hrepeat : forall c n, (0 < n)%nat ->
                    _calculate_sharpe_ratio (repeat c n) = Some 0).
  { intros c n Hn. apply Hzero; [| now apply variance_repeat].
    destruct n; [lia | discriminate]. }
  assert (Hpos : forall returns, 0 < variance returns ->
                 0 < std returns /\
                 _calculate_sharpe_ratio returns =
                 Some (mean returns / std returns * sqrt 252)).
  { intros returns Hv.
    assert (Hstd : 0 < std returns) by (apply sqrt_lt_R0; exact Hv).
    split; [exact Hstd |].
    pose proof (positive_variance_not_nil returns Hv) as Hne.
    unfold _calculate_sharpe_ratio.
    rewrite (np_mean_cons returns Hne), (np_std_cons returns Hne).
    destruct (Req_dec_T (std returns) 0) as [Heq | Hne0]; [lra |].
    now rewrite divide_nonzero. }
  split; [exact Hzero | split; [exact Hrepeat | split; [| split; [| split]]]].
  - intros n Hn. now apply Hrepeat.
  - intros returns. pose proof (variance_nonneg returns). lra.
  - exact Hpos.
  - intros returns Hne.
    destruct (variance_nonneg returns) as [Hv | Hv].
    + destruct (Hpos returns Hv) as [_ H]. eauto.
    + destruct (Hzero returns Hne (eq_sym Hv)) as [H _]. eauto.
Qed.

(** Three flat days give 0, where the formula alone fails; returns of 1%
    and 3% have mean 2% and deviation 1%, so the ratio is 2√252. *)
Lemma sharpe_ratio_guards_zero_variance_witness :
  _calculate_sharpe_ratio [0; 0; 0] = Some 0 /\
  sharpe_ratio_unguarded [0; 0; 0] = None /\
  0 < variance [1 / 100; 3 / 100] /\
  _calculate_sharpe_ratio [1 / 100; 3 / 100] = Some (2 * sqrt 252).
Proof.
  assert (Hm : mean [1 / 100; 3 / 100] = 2 / 100)
    by (unfold mean; simpl; lra).
  assert (Hv : variance [1 / 100; 3 / 100] = (1 / 100) * (1 / 100)).
  { unfold variance. rewrite Hm. unfold mean. simpl. lra. }
  assert (Hs : std [1 / 100; 3 / 100] = 1 / 100).
  { unfold std. rewrite Hv. apply sqrt_square. lra. }
  assert (Hpos : 0 < variance [1 / 100; 3 / 100]) by (rewrite Hv; lra).
  assert (Hflat : variance [0; 0; 0] = 0)
    by (apply (variance_repeat 0 3); lia).
  destruct sharpe_ratio_guards_zero_variance as (Hzero & _ & _ & _ & H & _).
  destruct (Hzero [0; 0; 0] ltac:(discriminate) Hflat) as [H0 Hu].
  split; [exact H0 | split; [exact Hu | split; [exact Hpos |]]].
  destruct (H [1 / 100; 3 / 100] Hpos) as [_ ->].
  rewrite Hm, Hs. f_equal. field.
Defined.

End Metrics.

(** ** Service declarations (backtestingService.ts) *)

Module BacktestingService.

(** [type: 'drl' | 'baseline'] *)
Inductive ResultType : Type :=
| drl
| baseline.

#[global] Instance ResultType_eq_dec : EqDecision ResultType.
Proof. solve_decision. Defined.

(** The string that travels in the JSON body. *)
Definition type_tag (t : ResultType) : string :=
  match t with
  | drl => "drl"
  | baseline => "baseline"
  end.

Record Metrics : Type := {
  totalReturn : Q;
  sharpeRatio : Q;
  maxDrawdown : Q;
  volatility : Q;
  winRate : Q
}.

(** [interface BacktestResult] *)
Record BacktestResult : Type := {
  algorithm : string;
  type : ResultType;
  returns : list Q;
  cumulativeReturns : list Q;
  dates : list string;
  metrics : Metrics
}.

Record Comparison : Type := {
  bestAlgorithm : string;
  bestReturn : Q;
  bestSharpeRatio : Q
}.

(** [interface BacktestResponse] *)
Record BacktestResponse : Type := {
  jobId : string;
  results : list BacktestResult;
  comparison : Comparison
}.

End BacktestingService.

(** ** The backtest engine (backtest_service.py) *)

Module BacktestEngine.
Import BacktestingService.
Local Open Scope list_scope.

(** What the engine writes to the backtest log. *)
Inductive LogLine : Type :=
| model_loaded (algorithm file : string)
| model_load_failed (algorithm : string) (seed : Z).

Section Engine.
(** The collaborators of the engine: stored model files and their
    deserialisation, the policies, the replay of a policy over the
    test partition (daily returns, cumulative returns, dates), the
    aggregate metrics, the baseline library, and the hash that seeds
    the fallback. *)
Variables (Artifact Policy : Type).
Variable load : Artifact -> option Policy.
Variable random_policy : Z -> Policy.
Variable seed_of : string -> string -> Z.
Variable baseline_policy : string -> string -> Policy.
Variable replay : Policy -> list Q * list Q * list string.
Variable metrics_of : list Q -> list Q -> Metrics.

(** The model directory: the file [outputs/{job_id}/models/
    {algorithm}/{file}] under the key [(job_id, algorithm, file)]. *)
Abbreviation Files := (gmap (string * string * string) Artifact).

Definition result_of (algorithm : string) (type : ResultType)
    (policy : Policy) : BacktestResult :=
  let '(returns, cumulativeReturns, dates) := replay policy in
  {| algorithm := algorithm; type := type; returns := returns;
     cumulativeReturns := cumulativeReturns; dates := dates;
     metrics := metrics_of returns cumulativeReturns |}.

(** IMPLEMENTATION_COMPLETE.md, model loading: [actor.pth] first,
    [actor_final.pth] if it does not exist. *)
Definition find_model (files : Files) (job_id algorithm : string)
    : option (string * Artifact) :=
  match files !! (job_id, algorithm, "actor.pth") with
  | Some a => Some ("actor.pth", a)
  | None =>
      match files !! (job_id, algorithm, "actor_final.pth") with
      | Some a => Some ("actor_final.pth", a)
      | None => None
      end
  end.

(** The trained policy of an algorithm, when its file exists and
    loads. *)
Definition trained_policy (files : Files) (job_id algorithm : string)
    : option (string * Policy) :=
  match find_model files job_id algorithm with
  | Some (file, a) =>
      match load a with
      | Some policy => Some (file, policy)
      | None => None
      end
  | None => None
  end.

(** Modelled from the spec: [_backtest_drl_model_fallback] is named in
    IMPLEMENTATION_COMPLETE.md but its body is not part of the
    sources; "fall back to a deterministic pseudo-random policy seeded
    from (job_id, algorithm) so the backtest still produces a result".
    The type of the result stays [drl], the only tag the declaration
    has for an agent. *)
Definition _backtest_drl_model_fallback (job_id algorithm : string)
    : BacktestResult :=
  result_of algorithm drl (random_policy (seed_of job_id algorithm)).

(** Modelled from the spec: [_backtest_drl_model] is not part of the
    sources; it replays the trained agent and, when "a trained model
    artifact is missing or fails to load", uses the fallback; "the
    failure is recorded". *)
Definition _backtest_drl_model (files : Files) (job_id algorithm : string)
    : BacktestResult * LogLine :=
  match trained_policy files job_id algorithm with
  | Some (file, policy) =>
      (result_of algorithm drl policy, model_loaded algorithm file)
  | None =>
      (_backtest_drl_model_fallback job_id algorithm,
       model_load_failed algorithm (seed_of job_id algorithm))
  end.

(** Modelled from the spec: [_run_baseline_strategy] is not part of
    the sources; "identical replay loop using the baseline's
    predict". *)
Definition _run_baseline_strategy (job_id strategy : string)
    : BacktestResult :=
  result_of strategy baseline (baseline_policy job_id strategy).

(** Modelled from the spec: [run_backtest(job_id, baseline_strategies)
    -> BacktestResult[]], one entry per algorithm of the job, then one
    per requested baseline. *)
Definition run_backtest (files : Files) (job_id : string)
    (algorithms baseline_strategies : list string)
    : list BacktestResult * list LogLine :=
  let agents := map (_backtest_drl_model files job_id) algorithms in
  (map fst agents ++ map (_run_baseline_strategy job_id) baseline_strategies,
   map snd agents).

Lemma result_of_algorithm algorithm type policy :
  BacktestingService.algorithm (result_of algorithm type policy) = algorithm
  /\ BacktestingService.type (result_of algorithm type policy) = type.
Proof.
  unfold result_of. destruct (replay policy) as [[r c] d]. split; reflexivity.
Qed.

(** A result depends on the files of its own algorithm only. *)
Lemma _backtest_drl_model_local files files' job_id algorithm :
  (forall file, files' !! (job_id, algorithm, file) =
                files !! (job_id, algorithm, file)) ->
  _backtest_drl_model files' job_id algorithm =
  _backtest_drl_model files job_id algorithm.
Proof.
  intros H. unfold _backtest_drl_model, trained_policy, find_model.
  now rewrite !H.
Qed.

Lemma run_backtest_names files job_id algorithms baseline_strategies :
  map BacktestingService.algorithm
      (fst (run_backtest files job_id algorithms baseline_strategies)) =
  algorithms ++ baseline_strategies.
Proof.
  unfold run_backtest. simpl. rewrite map_app, !map_map. f_equal.
  - transitivity (map (fun a : string => a) algorithms); [| apply map_id].
    apply map_ext_in. intros a _. unfold _backtest_drl_model.
    destruct (trained_policy files job_id a) as [[file policy] |]; simpl;
      apply result_of_algorithm.
  - transitivity (map (fun a : string => a) baseline_strategies);
      [| apply map_id].
    apply map_ext_in. intros a _. apply result_of_algorithm.
Qed.

Lemma run_backtest_agent files job_id algorithms baseline_strategies i a :
  algorithms !! i = Some a ->
  fst (run_backtest files job_id algorithms baseline_strategies) !! i =
  Some (fst (_backtest_drl_model files job_id a)) /\
  snd (run_backtest files job_id algorithms baseline_strategies) !! i =
  Some (snd (_backtest_drl_model files job_id a)).
Proof.
  intros Hi. unfold run_backtest. simpl.
  change (map ?f ?l) with (f <$> l). split.
  - rewrite lookup_app_l
      by (rewrite !length_fmap; apply lookup_lt_is_Some; eauto).
    now rewrite !list_lookup_fmap, Hi.
  - now rewrite !list_lookup_fmap, Hi.
Qed.

Lemma run_backtest_baseline files job_id algorithms baseline_strategies i s :
  baseline_strategies !! i = Some s ->
  fst (run_backtest files job_id algorithms baseline_strategies)
    !! (length algorithms + i)%nat =
  Some (_run_baseline_strategy job_id s).
Proof.
  intros Hi. unfold run_backtest. simpl.
  change (map ?f ?l) with (f <$> l).
  rewrite lookup_app_r by (rewrite !length_fmap; lia).
  rewrite !length_fmap.
  replace (length algorithms + i - length algorithms)%nat with i by lia.
  now rewrite list_lookup_fmap, Hi.
Qed.

(** Agent entries are tagged [drl], also when they come from the
    fallback; baseline entries are tagged [baseline]. *)
Lemma run_backtest_types files job_id algorithms baseline_strategies :
  (forall i a, algorithms !! i = Some a ->
   type <$> fst (run_backtest files job_id algorithms baseline_strategies) !! i
   = Some drl) /\
  (forall j s, baseline_strategies !! j = Some s ->
   type <$> fst (run_backtest files job_id algorithms baseline_strategies)
              !! (length algorithms + j)%nat
   = Some baseline).
Proof.
  split.
  - intros i a Hi.
    destruct (run_backtest_agent files job_id algorithms baseline_strategies
                i a Hi) as [-> _].
    simpl. f_equal. unfold _backtest_drl_model, _backtest_drl_model_fallback.
    destruct (trained_policy files job_id a) as [[file policy] |]; simpl;
      apply result_of_algorithm.
  - intros j s Hj.
    rewrite (run_backtest_baseline files job_id algorithms
               baseline_strategies j s Hj).
    simpl. f_equal. apply result_of_algorithm.
Qed.

(** The model of an algorithm is missing or fails to load. *)
Definition model_unusable (files : Files) (job_id algorithm : string) : Prop :=
  find_model files job_id algorithm = None \/
  exists file a,
    find_model files job_id algorithm = Some (file, a) /\ load a = None.

Lemma model_unusable_spec files job_id algorithm :
  model_unusable files job_id algorithm <->
  trained_policy files job_id algorithm = None.
Proof.
  unfold model_unusable, trained_policy. split.
  - intros [-> | (file & a & -> & ->)]; reflexivity.
  - destruct (find_model files job_id algorithm) as [[file a] |]; [| auto].
    destruct (load a) eqn:E; [discriminate |].
    intros _. right. eauto.
Qed.

(** C5: when the model of the algorithm at position [i] of a job is
    missing or fails to load, [run_backtest] still returns one result
    per algorithm and per baseline strategy, in order; the result at
    position [i] is the replay of the pseudo-random policy seeded from
    (job_id, algorithm), the log line at position [i] records the
    failure, and the results of the other algorithms and of the
    baselines are those of any model directory that differs only in the
    files of that algorithm. *)
Theorem missing_model_falls_back
    (files : Files) (job_id : string)
    (algorithms baseline_strategies : list string)
    (i : nat) (algorithm : string) :
  algorithms !! i = Some algorithm ->
  model_unusable files job_id algorithm ->
  let run := run_backtest files job_id algorithms baseline_strategies in
  map BacktestingService.algorithm (fst run) =
    algorithms ++ baseline_strategies /\
  fst run !! i =
    Some (result_of algorithm drl (random_policy (seed_of job_id algorithm))) /\
  snd run !! i =
    Some (model_load_failed algorithm (seed_of job_id algorithm)) /\
  (forall files' : Files,
     (forall a file, a <> algorithm ->
        files' !! (job_id, a, file) = files !! (job_id, a, file)) ->
     let run' := run_backtest files' job_id algorithms baseline_strategies in
     (forall j a, algorithms !! j = Some a -> a <> algorithm ->
        fst run' !! j = fst run !! j /\ snd run' !! j = snd run !! j) /\
     (forall j s, baseline_strategies !! j = Some s ->
        fst run' !! (length algorithms + j)%nat =
        fst run !! (length algorithms + j)%nat)).
Proof.
  intros Hi Hmissing run. subst run.
  apply model_unusable_spec in Hmissing.
  split; [apply run_backtest_names | split; [| split; [| split]]].
  - destruct (run_backtest_agent files job_id algorithms baseline_strategies
                i algorithm Hi) as [-> _].
    unfold _backtest_drl_model. now rewrite Hmissing.
  - destruct (run_backtest_agent files job_id algorithms baseline_strategies
                i algorithm Hi) as [_ ->].
    unfold _backtest_drl_model. now rewrite Hmissing.
  - intros j a Hj Hne.
    destruct (run_backtest_agent files job_id algorithms baseline_strategies
                j a Hj) as [-> ->].
    destruct (run_backtest_agent files' job_id algorithms baseline_strategies
                j a Hj) as [-> ->].
    rewrite (_backtest_drl_model_local files files' job_id a)
      by (intros file; now apply H).
    split; reflexivity.
  - intros j s Hj.
    now rewrite !(run_backtest_baseline _ job_id algorithms
                    baseline_strategies j s Hj).
Qed.

End Engine.

(** A toy instance: model files are strings that load unless they read
    "corrupt", a policy is the constant daily return it earns, and the
    seed of the fallback is the length of the two names. *)
Definition toy_load (a : string) : option Q :=
  if String.eqb a "corrupt" then None else Some (1 # 100)%Q.

Definition toy_seed (job_id algorithm : string) : Z :=
  Z.of_nat (String.length job_id + String.length algorithm).

Definition toy_replay (daily : Q) : list Q * list Q * list string :=
  ([daily; daily], [daily; (daily + daily)%Q], ["2024-01-02"; "2024-01-03"]).

Definition toy_metrics (returns cumulativeReturns : list Q) : Metrics :=
  {| totalReturn := List.last cumulativeReturns 0%Q; sharpeRatio := 0%Q;
     maxDrawdown := 0%Q; volatility := 0%Q; winRate := 1%Q |}.

Definition toy_files : gmap (string * string * string) string :=
  <[("job", "PPO", "actor.pth") := "weights"]>
    (<[("job", "DQN", "actor_final.pth") := "corrupt"]> ∅).

(** DQN's only file is corrupt, A2C has none: both fall back, PPO and the
    baseline are replayed as usual. *)
Lemma missing_model_falls_back_witness :
  ["PPO"; "DQN"; "A2C"] !! 1%nat = Some "DQN" /\
  model_unusable string Q toy_load toy_files "job" "DQN" /\
  run_backtest string Q toy_load (fun seed => seed # 1000)%Q toy_seed
    (fun _ _ => 0%Q) toy_replay toy_metrics toy_files "job"
    ["PPO"; "DQN"; "A2C"] ["BuyAndHold"]
  = ([result_of Q toy_replay toy_metrics "PPO" drl (1 # 100)%Q;
      result_of Q toy_replay toy_metrics "DQN" drl (6 # 1000)%Q;
      result_of Q toy_replay toy_metrics "A2C" drl (6 # 1000)%Q;
      result_of Q toy_replay toy_metrics "BuyAndHold" baseline 0%Q],
     [model_loaded "PPO" "actor.pth"; model_load_failed "DQN" 6;
      model_load_failed "A2C" 6]).
Proof.
  assert (Hi : ["PPO"; "DQN"; "A2C"] !! 1%nat = Some "DQN") by reflexivity.
  assert (Hm : model_unusable string Q toy_load toy_files "job" "DQN").
  { right. exists "actor_final.pth", "corrupt". split; reflexivity. }
  split; [exact Hi | split; [exact Hm |]].
  pose proof (missing_model_falls_back string Q toy_load
                (fun seed => seed # 1000)%Q toy_seed (fun _ _ => 0%Q)
                toy_replay toy_metrics toy_files "job" ["PPO"; "DQN"; "A2C"]
                ["BuyAndHold"] 1%nat "DQN" Hi Hm) as (_ & H & _).
  reflexivity.
Defined.

End BacktestEngine.

(** ** The backtesting page *)

Module BacktestingPage.
Import BacktestingService.

(** What the [catch] clause reads of the thrown value:
    [error?.response?.status], [error?.response?.data?.detail] and
    [error.message]. *)
Record RequestError : Type := {
  response_status : option Z;
  response_detail : option string;
  message : string
}.

(** Outcome of [await backtestingService.getResults(response.jobId)]. *)
Inductive Fetch : Type :=
| resolved (backtestResults : BacktestResponse)
| rejected (error : RequestError).

Record Page : Type := {
  backtesting : bool;
  st_results : list BacktestResult;
  st_comparison : option Comparison;
  notices : list Notice
}.

(** What [pollResults] leaves behind: nothing, or
    [setTimeout(pollResults, delay)]. *)
Inductive Next : Type :=
| finished
| again (delay_ms : Z).

(** [error?.response?.status === 404] *)
Definition is_404 (error : RequestError) : bool :=
  match response_status error with
  | Some code => (code =? 404)%Z
  | None => false
  end.

(** [error?.response?.data?.detail || error.message]: an absent or empty
    detail is falsy. *)
Definition detail_or_message (error : RequestError) : string :=
  match response_detail error with
  | Some EmptyString | None => message error
  | Some d => d
  end.

Definition pollResults (r : Fetch) (s : Page) : Page * Next :=
  match r with
  | resolved backtestResults =>
      ({| backtesting := false;
          st_results := results backtestResults;
          st_comparison := Some (comparison backtestResults);
          notices := notices s ++ [msg_success "Backtesting completed!"] |},
       finished)
  | rejected error =>
      if is_404 error then
        (s, again 2000)
      else
        ({| backtesting := false;
            st_results := st_results s;
            st_comparison := st_comparison s;
            notices := notices s ++
              [msg_error ("Backtesting failed: " ++ detail_or_message error)] |},
         finished)
  end.

(** What [startBacktest] does once the start request succeeded:
    [setBacktesting(true)], the message, and the first
    [setTimeout(pollResults, 2000)]. *)
Definition startBacktest (s : Page) : Page * Next :=
  ({| backtesting := true;
      st_results := st_results s;
      st_comparison := st_comparison s;
      notices := notices s ++ [msg_success "Backtesting started successfully"] |},
   again 2000).

(** The chain of timeouts. [server k] is the outcome of the [k]-th
    request, [now] the time in ms at which the pending timeout fires.
    The loop returns the final page, the number of requests made and
    the time of the last one; [None] when [fuel] polls were not enough. *)
Fixpoint poll_loop (fuel : nat) (server : nat -> Fetch) (k : nat) (now : Z)
    (s : Page) : option (Page * nat * Z) :=
  match fuel with
  | O => None
  | S fuel' =>
      match pollResults (server k) s with
      | (s', finished) => Some (s', S k, now)
      | (s', again delay) => poll_loop fuel' server (S k) (now + delay) s'
      end
  end.

(** The whole episode from [startBacktest] on, with the clock at 0. *)
Definition backtest_polling (fuel : nat) (server : nat -> Fetch) (s : Page)
    : option (Page * nat * Z) :=
  match startBacktest s with
  | (s', again delay) => poll_loop fuel server 0 delay s'
  | (s', finished) => Some (s', O, 0)
  end.

(** The request is answered "not ready yet". *)
Definition not_ready (r : Fetch) : bool :=
  match r with
  | resolved _ => false
  | rejected error => is_404 error
  end.

Lemma pollResults_not_ready r s :
  not_ready r = true -> pollResults r s = (s, again 2000).
Proof.
  destruct r as [b | e]; simpl; [discriminate |]. now intros ->.
Qed.

Lemma pollResults_ready r s :
  not_ready r = false -> snd (pollResults r s) = finished.
Proof.
  destruct r as [b | e]; simpl; [reflexivity |]. now intros ->.
Qed.

(** [m] consecutive 404 answers only move the clock. *)
Lemma poll_loop_skip server m : forall fuel k now s,
  (forall j, (k <= j < k + m)%nat -> not_ready (server j) = true) ->
  poll_loop (m + fuel) server k now s =
  poll_loop fuel server (k + m) (now + 2000 * Z.of_nat m) s.
Proof.
  induction m as [| m IH]; intros fuel k now s H.
  - simpl. now rewrite Nat.add_0_r, Z.add_0_r.
  - simpl. rewrite (pollResults_not_ready (server k) s) by (apply H; lia).
    rewrite IH by (intros j Hj; apply H; lia).
    f_equal; lia.
Qed.

Lemma poll_loop_short server : forall fuel k now s,
  (forall j, (k <= j < k + fuel)%nat -> not_ready (server j) = true) ->
  poll_loop fuel server k now s = None.
Proof.
  induction fuel as [| fuel IH]; intros k now s H; [reflexivity |].
  simpl. rewrite (pollResults_not_ready (server k) s) by (apply H; lia).
  apply IH. intros j Hj. apply H. lia.
Qed.

(** [n] is the first request that is not answered 404. *)
Definition first_ready (server : nat -> Fetch) (n : nat) : Prop :=
  (forall j, (j < n)%nat -> not_ready (server j) = true) /\
  not_ready (server n) = false.

(** If some request is not answered 404, one of them is the first. *)
Lemma first_ready_exists server : forall k,
  not_ready (server k) = false -> exists n, (n <= k)%nat /\ first_ready server n.
Proof.
  assert (Hscan : forall k,
    (forall j, (j < k)%nat -> not_ready (server j) = true) \/
    exists j, (j < k)%nat /\ not_ready (server j) = false).
  { induction k as [| k [Hall | (j & Hj & Hnot)]].
    - left. intros j Hj. lia.
    - destruct (not_ready (server k)) eqn:E.
      + left. intros j Hj. destruct (Nat.eq_dec j k) as [-> | Hne];
          [exact E | apply Hall; lia].
      + right. exists k. split; [lia | exact E].
    - right. exists j. split; [lia | exact Hnot]. }
  induction k as [k IH] using lt_wf_ind. intros Hk.
  destruct (Hscan k) as [Hall | (j & Hj & Hnot)].
  - exists k. split; [lia |]. split; [exact Hall | exact Hk].
  - destruct (IH j Hj Hnot) as (n & Hn & Hfirst).
    exists n. split; [lia | exact Hfirst].
Qed.

Lemma backtest_polling_first server s n :
  first_ready server n ->
  forall fuel, (n < fuel)%nat ->
  backtest_polling fuel server s =
  Some (fst (pollResults (server n) (fst (startBacktest s))),
        S n, 2000 * (Z.of_nat n + 1)).
Proof.
  intros [Hbefore Hn] fuel Hfuel. unfold backtest_polling. simpl.
  replace fuel with (n + S (fuel - S n))%nat by lia.
  rewrite poll_loop_skip by (intros j Hj; apply Hbefore; lia).
  simpl. pose proof (pollResults_ready (server n)
    (fst (startBacktest s)) Hn) as Hs. simpl in Hs.
  destruct (pollResults (server n) _) as [s' nx] eqn:E. simpl in Hs. subst nx.
  simpl. do 2 f_equal. lia.
Qed.

Definition last_notice (s : Page) : option Notice := last (notices s).

(** C10: on the backtesting page a 404 from [getResults] only
    re-arms the 2000 ms timeout; the first answer that is not a 404 is
    the last request: a success stores results and comparison, any other
    error shows the failure message, and both clear the backtesting
    flag; so the polling ends after [n + 1] requests when request [n] is
    the first one not answered 404, and it goes on for ever exactly when
    every request is answered 404. *)
Theorem backtest_polling_ends_unless_404_forever
    (server : nat -> Fetch) (s : Page) :
  (forall r p, not_ready r = true -> pollResults r p = (p, again 2000)) /\
  (forall n, first_ready server n ->
   let final := fst (pollResults (server n) (fst (startBacktest s))) in
   (forall fuel, (fuel <= n)%nat -> backtest_polling fuel server s = None) /\
   (forall fuel, (n < fuel)%nat ->
    backtest_polling fuel server s =
    Some (final, S n, 2000 * (Z.of_nat n + 1))) /\
   backtesting final = false /\
   match server n with
   | resolved backtestResults =>
       st_results final = results backtestResults /\
       st_comparison final = Some (comparison backtestResults) /\
       last_notice final = Some (msg_success "Backtesting completed!")
   | rejected error =>
       st_results final = st_results s /\
       st_comparison final = st_comparison s /\
       last_notice final =
       Some (msg_error ("Backtesting failed: " ++ detail_or_message error))
   end) /\
  ((forall fuel, backtest_polling fuel server s = None) <->
   (forall k, not_ready (server k) = true)).
Proof.
  split; [| split].
  - intros r p. apply pollResults_not_ready.
  - intros n Hfirst final. split; [| split; [| split]].
    + intros fuel Hfuel. unfold backtest_polling. simpl.
      apply poll_loop_short. intros j Hj. apply (proj1 Hfirst). lia.
    + apply backtest_polling_first. exact Hfirst.
    + subst final. destruct Hfirst as [_ Hn].
      destruct (server n) as [b | e]; simpl in *; [reflexivity |].
      rewrite Hn. reflexivity.
    + subst final. destruct Hfirst as [_ Hn].
      destruct (server n) as [b | e]; simpl in *.
      * unfold last_notice. simpl. rewrite last_snoc. auto.
      * rewrite Hn. unfold last_notice. simpl. rewrite last_snoc. auto.
  - split.
    + intros Hnone k.
      destruct (not_ready (server k)) eqn:E; [reflexivity | exfalso].
      destruct (first_ready_exists server k E) as (n & _ & Hfirst).
      pose proof (backtest_polling_first server s n Hfirst (S n)
                    (Nat.lt_succ_diag_r n)) as H.
      rewrite Hnone in H. discriminate.
    + intros Hall fuel. unfold backtest_polling. simpl.
      apply poll_loop_short. intros j _. apply Hall.
Qed.

Definition initial : Page :=
  {| backtesting := false; st_results := []; st_comparison := None;
     notices := [] |}.

Definition not_found : RequestError :=
  {| response_status := Some 404;
     response_detail := Some "Backtest results not found";
     message := "Request failed with status code 404" |}.

Definition server_error : RequestError :=
  {| response_status := Some 500;
     response_detail := None;
     message := "Request failed with status code 500" |}.

(** Two 404 answers, then a 500. *)
Definition flaky_server (k : nat) : Fetch :=
  match k with
  | 0%nat | 1%nat => rejected not_found
  | _ => rejected server_error
  end.

Lemma backtest_polling_ends_unless_404_forever_witness :
  first_ready flaky_server 2 /\
  backtest_polling 10 flaky_server initial =
  Some ({| backtesting := false; st_results := []; st_comparison := None;
           notices := [msg_success "Backtesting started successfully";
                       msg_error "Backtesting failed: Request failed with status code 500"] |},
        3%nat, 6000).
Proof.
  assert (Hfirst : first_ready flaky_server 2).
  { split; [| reflexivity].
    intros j Hj. destruct j as [| [| j]]; [reflexivity | reflexivity | lia]. }
  split; [exact Hfirst |].
  destruct (backtest_polling_ends_unless_404_forever flaky_server initial)
    as (_ & H & _).
  destruct (H 2%nat Hfirst) as (_ & Hrun & _).
  rewrite (Hrun 10%nat) by lia. reflexivity.
Defined.

(** *** The results table *)

(** [String.prototype.toUpperCase] on the ASCII letters. *)
Definition upper (c : ascii) : ascii :=
  let n := nat_of_ascii c in
  if ((97 <=? n) && (n <=? 122))%nat then ascii_of_nat (n - 32) else c.

Fixpoint toUpperCase (s : string) : string :=
  match s with
  | EmptyString => EmptyString
  | String c s' => String (upper c) (toUpperCase s')
  end.

(** [resultsColumns], column Algorithm, on the string that arrived:
    [color={record.type === 'drl' ? 'blue' : 'green'}]. *)
Definition Tag_color (type_string : string) : string :=
  if String.eqb type_string "drl" then "blue" else "green".

Definition tag_color (record : BacktestResult) : string :=
  Tag_color (type_tag (type record)).

(** [{record.type.toUpperCase()}] *)
Definition tag_text (record : BacktestResult) : string :=
  toUpperCase (type_tag (type record)).

(** The specification's sentence read on the wire format of a list of
    results: the tag of every result is "agent" or "baseline". *)
Definition tags_are_agent_or_baseline (results : list BacktestResult) : Prop :=
  Forall (fun record => In (type_tag (type record)) ["agent"; "baseline"])
         results.

Definition no_metrics : Metrics :=
  {| totalReturn := 0%Q; sharpeRatio := 0%Q; maxDrawdown := 0%Q;
     volatility := 0%Q; winRate := 0%Q |}.

(** What [run_backtest] returns for the toy engine of [BacktestEngine]:
    a job with three algorithms, of which only PPO has a model that
    loads, and one baseline strategy. *)
Definition toy_results : list BacktestResult :=
  fst (BacktestEngine.run_backtest string Q BacktestEngine.toy_load
         (fun seed => seed # 1000)%Q BacktestEngine.toy_seed
         (fun _ _ => 0%Q) BacktestEngine.toy_replay
         BacktestEngine.toy_metrics BacktestEngine.toy_files "job"
         ["PPO"; "DQN"; "A2C"] ["BuyAndHold"]).

(** The results of the trained agents are tagged "drl": the first result
    of that run, the replay of the PPO model, already is. *)
Lemma agent_results_are_tagged_drl :
  ~ tags_are_agent_or_baseline toy_results.
Proof.
  intros H. apply Forall_inv in H. simpl in H.
  destruct H as [H | [H | []]]; discriminate H.
Qed.

(** A result tagged "agent" would be shown as a baseline. *)
Example agent_tag_shown_green : Tag_color "agent" = Tag_color "baseline".
Proof. reflexivity. Qed.

(** The tags of a run, position by position. *)
Lemma run_backtest_tags (Artifact Policy : Type)
    (load : Artifact -> option Policy) (random_policy : Z -> Policy)
    (seed_of : string -> string -> Z)
    (baseline_policy : string -> string -> Policy)
    (replay : Policy -> list Q * list Q * list string)
    (metrics_of : list Q -> list Q -> Metrics)
    (files : gmap (string * string * string) Artifact) (job_id : string)
    (algorithms baseline_strategies : list string) :
  map type
    (fst (BacktestEngine.run_backtest Artifact Policy load random_policy
            seed_of baseline_policy replay metrics_of files job_id
            algorithms baseline_strategies)) =
  (map (fun _ => drl) algorithms ++
   map (fun _ => baseline) baseline_strategies)%list.
Proof.
  unfold BacktestEngine.run_backtest. simpl.
  rewrite map_app, !map_map. f_equal; apply map_ext; intros a.
  - unfold BacktestEngine._backtest_drl_model,
      BacktestEngine._backtest_drl_model_fallback.
    destruct (BacktestEngine.trained_policy _ _ _ _ _ _) as [[file policy] |];
      simpl; apply BacktestEngine.result_of_algorithm.
  - apply BacktestEngine.result_of_algorithm.
Qed.

(** C3 (as the code has it): the results [run_backtest] returns carry
    one of exactly two tags, and which one is fixed by the kind of
    replay: the entry of every algorithm of the job, replayed from its
    model or from the fallback, is tagged "drl", the entry of every
    requested baseline strategy is tagged "baseline", no entry is tagged
    "agent"; and the results table tells the two apart: blue and DRL
    for the former, green and BASELINE for the latter. *)
Theorem backtest_result_type_drl_or_baseline
    (Artifact Policy : Type)
    (load : Artifact -> option Policy) (random_policy : Z -> Policy)
    (seed_of : string -> string -> Z)
    (baseline_policy : string -> string -> Policy)
    (replay : Policy -> list Q * list Q * list string)
    (metrics_of : list Q -> list Q -> Metrics)
    (files : gmap (string * string * string) Artifact) (job_id : string)
    (algorithms baseline_strategies : list string) :
  let results :=
    fst (BacktestEngine.run_backtest Artifact Policy load random_policy
           seed_of baseline_policy replay metrics_of files job_id
           algorithms baseline_strategies) in
  map (fun record => type_tag (type record)) results =
    (map (fun _ => "drl") algorithms ++
     map (fun _ => "baseline") baseline_strategies)%list /\
  Forall (fun record => type_tag (type record) = "drl" \/
                        type_tag (type record) = "baseline") results /\
  Forall (fun record => type_tag (type record) <> "agent") results /\
  (forall i a, algorithms !! i = Some a ->
   exists record,
     results !! i = Some record /\ algorithm record = a /\
     type_tag (type record) = "drl" /\
     tag_color record = "blue" /\ tag_text record = "DRL") /\
  (forall j s, baseline_strategies !! j = Some s ->
   exists record,
     results !! (length algorithms + j)%nat = Some record /\
     algorithm record = s /\
     type_tag (type record) = "baseline" /\
     tag_color record = "green" /\ tag_text record = "BASELINE").
Proof.
  intros results.
  pose proof (run_backtest_tags Artifact Policy load random_policy seed_of
                baseline_policy replay metrics_of files job_id algorithms
                baseline_strategies) as Htags.
  fold results in Htags.
  pose proof (BacktestEngine.run_backtest_names Artifact Policy load
                random_policy seed_of baseline_policy replay metrics_of files
                job_id algorithms baseline_strategies) as Hnames.
  fold results in Hnames.
  assert (Hlen : length results =
                 (length algorithms + length baseline_strategies)%nat).
  { rewrite <- (length_map algorithm), Hnames. apply length_app. }
  assert (Hat : forall k record, results !! k = Some record ->
            (k < length algorithms)%nat /\ type record = drl \/
            (length algorithms <= k)%nat /\ type record = baseline).
  { intros k record Hk.
    assert (Hty : map type results !! k = Some (type record)).
    { change (map type results) with (type <$> results).
      now rewrite list_lookup_fmap, Hk. }
    rewrite Htags in Hty.
    destruct (Nat.lt_ge_cases k (length algorithms)) as [Hlt | Hge].
    - left. split; [exact Hlt |].
      rewrite lookup_app_l in Hty by (now rewrite length_map).
      change (map ?f ?l) with (f <$> l) in Hty.
      rewrite list_lookup_fmap in Hty.
      destruct (algorithms !! k); simpl in Hty; congruence.
    - right. split; [exact Hge |].
      rewrite lookup_app_r in Hty by (now rewrite length_map).
      change (map ?f ?l) with (f <$> l) in Hty.
      rewrite list_lookup_fmap in Hty.
      destruct (baseline_strategies !! _); simpl in Hty; congruence. }
  split; [| split; [| split; [| split]]].
  - transitivity (map type_tag (map type results));
      [now rewrite map_map |].
    rewrite Htags, map_app, !map_map. reflexivity.
  - apply Forall_forall. intros record _.
    destruct (type record); simpl; auto.
  - apply Forall_forall. intros record _.
    destruct (type record); simpl; discriminate.
  - intros i a Hi.
    assert (Hlt : (i < length results)%nat)
      by (rewrite Hlen; apply lookup_lt_Some in Hi; lia).
    destruct (lookup_lt_is_Some_2 results i Hlt) as [record Hrec].
    exists record. split; [exact Hrec |].
    assert (Hname : algorithm record = a).
    { assert (H : map algorithm results !! i = Some (algorithm record)).
      { change (map algorithm results) with (algorithm <$> results).
        now rewrite list_lookup_fmap, Hrec. }
      rewrite Hnames, lookup_app_l, Hi in H
        by (now apply lookup_lt_Some in Hi).
      congruence. }
    split; [exact Hname |].
    destruct (Hat i record Hrec) as [[_ Hty] | [Hge _]];
      [| apply lookup_lt_Some in Hi; lia].
    unfold tag_color, tag_text. rewrite Hty. repeat split; reflexivity.
  - intros j s Hj.
    assert (Hlt : (length algorithms + j < length results)%nat)
      by (rewrite Hlen; apply lookup_lt_Some in Hj; lia).
    destruct (lookup_lt_is_Some_2 results _ Hlt) as [record Hrec].
    exists record. split; [exact Hrec |].
    assert (Hname : algorithm record = s).
    { assert (H : map algorithm results !! (length algorithms + j)%nat =
                  Some (algorithm record)).
      { change (map algorithm results) with (algorithm <$> results).
        now rewrite list_lookup_fmap, Hrec. }
      rewrite Hnames, lookup_app_r in H by lia.
      replace (length algorithms + j - length algorithms)%nat with j in H
        by lia.
      congruence. }
    split; [exact Hname |].
    destruct (Hat _ record Hrec) as [[Hlt' _] | [_ Hty]]; [lia |].
    unfold tag_color, tag_text. rewrite Hty. repeat split; reflexivity.
Qed.

End BacktestingPage.

(** ** The Progress, Loss and Reward columns fed by the backend *)

Module ProgressBar.
Import TrainingService TrainingBackend.
Local Open Scope list_scope.
Local Open Scope Z_scope.

(** A table cell: the text ['-'] or [value.toFixed(digits)]. *)
Inductive Cell : Type :=
| dash
| toFixed (digits : nat) (value : Q).

(** A number used as a condition: 0 is falsy. *)
Definition truthy (x : Q) : bool := negb (Qeq_bool x 0).

(** [progressColumns], column Loss:
    [render: (loss) => (loss ? loss.toFixed(4) : '-')]. *)
Definition Loss_render (loss : Q) : Cell :=
  if truthy loss then toFixed 4 loss else dash.

(** [progressColumns], column Reward:
    [render: (reward) => (reward ? reward.toFixed(2) : '-')]. *)
Definition Reward_render (reward : Q) : Cell :=
  if truthy reward then toFixed 2 reward else dash.

(** The percentage in integer arithmetic. *)
Lemma Math_round_fraction (e T : Z) :
  0 < T ->
  TrainingPage.Math_round (inject_Z e / inject_Z T * 100)%Q =
  (200 * e + T) / (2 * T).
Proof.
  intros HT. unfold TrainingPage.Math_round.
  destruct T as [| p | p]; try lia.
  assert (H : (inject_Z e / inject_Z (Z.pos p) * 100 + (1 # 2) ==
               (200 * e + Z.pos p) # (2 * p))%Q).
  { rewrite (Qmake_Qdiv (200 * e + Z.pos p) (2 * p)).
    rewrite Pos2Z.inj_mul, inject_Z_plus, !inject_Z_mult.
    field. discriminate. }
  rewrite (Qfloor_comp _ _ H). reflexivity.
Qed.

Lemma percent_running (record : TrainingProgress) :
  0 < totalEpochs record ->
  status record = training \/ status record = completed ->
  TrainingPage.percent record =
  (200 * epoch record + totalEpochs record) / (2 * totalEpochs record).
Proof.
  intros HT Hs. unfold TrainingPage.percent, TrainingPage.fraction.
  destruct Hs as [-> | ->]; now apply Math_round_fraction.
Qed.

Lemma percent_idle (record : TrainingProgress) :
  status record = pending \/ status record = failed ->
  TrainingPage.percent record = 0.
Proof. unfold TrainingPage.percent. intros [-> | ->]; reflexivity. Qed.

(** X1: for a record with a positive total and a step count between 0
    and the total, the bar shows between 0 and 100 percent; while
    training or completed it shows 100 exactly from 99.5% of the steps
    on and 0 exactly below 0.5%, and it never goes down when the step
    count goes up. *)
Theorem progress_percent_within_bounds (record : TrainingProgress) :
  0 < totalEpochs record ->
  0 <= epoch record <= totalEpochs record ->
  0 <= TrainingPage.percent record <= 100 /\
  (status record = training \/ status record = completed ->
   (TrainingPage.percent record = 100 <->
    199 * totalEpochs record <= 200 * epoch record) /\
   (TrainingPage.percent record = 0 <->
    200 * epoch record < totalEpochs record) /\
   forall later : TrainingProgress,
     status later = status record ->
     totalEpochs later = totalEpochs record ->
     epoch record <= epoch later ->
     TrainingPage.percent record <= TrainingPage.percent later).
Proof.
  intros HT He.
  set (T := totalEpochs record) in *. set (e := epoch record) in *.
  assert (Hdiv : forall x, 0 <= x <= T ->
            0 <= (200 * x + T) / (2 * T) <= 100).
  { intros x Hx. split.
    - apply Z.div_pos; lia.
    - assert ((200 * x + T) / (2 * T) < 101)
        by (apply Z.div_lt_upper_bound; lia).
      lia. }
  split.
  - destruct (status record) eqn:Hs.
    + rewrite percent_idle by auto. lia.
    + rewrite percent_running by auto. now apply Hdiv.
    + rewrite percent_running by auto. now apply Hdiv.
    + rewrite percent_idle by auto. lia.
  - intros Hs. rewrite percent_running by assumption. fold T e.
    pose proof (Z.div_mod (200 * e + T) (2 * T) ltac:(lia)) as Hdm.
    pose proof (Z.mod_pos_bound (200 * e + T) (2 * T) ltac:(lia)) as Hm.
    split; [| split].
    + split; intros H; [rewrite H in Hdm; lia |].
      apply Z.le_antisymm; [apply Hdiv; lia |].
      apply Z.div_le_lower_bound; lia.
    + split; intros H; [rewrite H in Hdm; lia |].
      apply Z.div_small. lia.
    + intros later Hst Htot Hle.
      rewrite (percent_running later) by (rewrite ?Htot, ?Hst; assumption).
      rewrite Htot. fold T. apply Z.div_le_mono; lia.
Qed.

Definition halfway : TrainingProgress :=
  {| algorithm := "PPO"; epoch := 2500; totalEpochs := 5000;
     loss := 0.5%Q; reward := 1%Q; status := training |}.

Lemma progress_percent_within_bounds_witness :
  0 < totalEpochs halfway /\
  0 <= epoch halfway <= totalEpochs halfway /\
  TrainingPage.percent halfway = 50 /\
  0 <= TrainingPage.percent halfway <= 100.
Proof.
  assert (HT : 0 < totalEpochs halfway) by reflexivity.
  assert (He : 0 <= epoch halfway <= totalEpochs halfway)
    by (split; discriminate).
  split; [exact HT | split; [exact He | split; [reflexivity |]]].
  exact (proj1 (progress_percent_within_bounds halfway HT He)).
Defined.

Lemma Loss_render_dash (x : Q) : Loss_render x = dash <-> (x == 0)%Q.
Proof.
  unfold Loss_render, truthy. rewrite <- Qeq_bool_iff.
  destruct (Qeq_bool x 0); simpl; split; intros H;
    try reflexivity; discriminate H.
Qed.

Lemma Reward_render_dash (x : Q) : Reward_render x = dash <-> (x == 0)%Q.
Proof.
  unfold Reward_render, truthy. rewrite <- Qeq_bool_iff.
  destruct (Qeq_bool x 0); simpl; split; intros H;
    try reflexivity; discriminate H.
Qed.

(** X3: the row of an algorithm after its training run (with a positive
    number of timesteps) shows a full bar labelled total/total; its Loss
    cell is ['-'] exactly when the last rolling loss reported was 0 (or
    nothing was reported), otherwise it is that loss with four
    decimals; its Reward cell is ['-'] exactly when the final evaluation
    reward is 0. *)
Theorem completed_run_row
    (job_id algorithm : string) (total : Z) (steps : list StepInfo)
    (ev : Evaluation) (sv : Service) :
  0 < total ->
  exists record,
    store (train_algorithm job_id algorithm total steps ev sv)
      !! (job_id, algorithm) = Some record /\
    TrainingPage.percent record = 100 /\
    TrainingPage.format record = (total, total) /\
    (Loss_render (loss record) = dash <-> (rolling_loss steps == 0)%Q) /\
    (forall info, last steps = Some info -> ~ (avg_loss info == 0)%Q ->
     Loss_render (loss record) = toFixed 4 (avg_loss info)) /\
    (steps = [] -> Loss_render (loss record) = dash) /\
    (Reward_render (reward record) = dash <-> (final_reward ev == 0)%Q).
Proof.
  intros HT. exists (terminal_record algorithm total steps ev).
  split; [rewrite train_algorithm_unfold; simpl; apply lookup_insert_eq |].
  split.
  { rewrite percent_running by (simpl; auto). simpl.
    replace (200 * total + total) with (100 * (2 * total) + total) by lia.
    rewrite Z.div_add_l by lia. rewrite Z.div_small by lia. lia. }
  split; [reflexivity |]. simpl.
  split; [apply Loss_render_dash | split; [| split]].
  - intros info Hlast Hnz. unfold rolling_loss. rewrite Hlast.
    unfold Loss_render, truthy.
    destruct (Qeq_bool (avg_loss info) 0) eqn:E; [| reflexivity].
    apply Qeq_bool_iff in E. contradiction.
  - intros ->. reflexivity.
  - apply Reward_render_dash.
Qed.

Lemma completed_run_row_witness :
  0 < 5000 /\
  (Loss_render 0.25%Q = toFixed 4 0.25%Q) /\
  exists record,
    store (train_algorithm "job" "PPO" 5000
             [{| step_count := 5000; avg_loss := 0.25%Q; avg_reward := 3%Q |}]
             {| final_reward := 0%Q; final_std := 0%Q; training_time := 9%Q |}
             empty_service) !! ("job", "PPO") = Some record /\
    TrainingPage.percent record = 100 /\
    Reward_render (reward record) = dash.
Proof.
  assert (HT : 0 < 5000) by reflexivity.
  split; [exact HT | split; [reflexivity |]].
  destruct (completed_run_row "job" "PPO" 5000
              [{| step_count := 5000; avg_loss := 0.25%Q; avg_reward := 3%Q |}]
              {| final_reward := 0%Q; final_std := 0%Q; training_time := 9%Q |}
              empty_service HT)
    as (record & Hrec & Hp & _ & _ & _ & _ & Hr).
  exists record. split; [exact Hrec | split; [exact Hp |]].
  apply Hr. reflexivity.
Defined.

(** *** The bar over a whole run *)






End ProgressBar.

(** ** The advisory on the number of steps (routers/training.py) *)

Module Advisory.
Import TrainingRouter.
Local Open Scope list_scope.
Local Open Scope Z_scope.

(** *** The loop and the table after the parameter optimisation *)

(** [MIN_TIMESTEPS_RECOMMENDED] as the optimisation note leaves it. *)
Definition MIN_TIMESTEPS_RECOMMENDED_optimized : gmap string Z :=
  list_to_map
    [("PPO", 10000); ("DQN", 10000); ("A2C", 8000); ("SAC", 15000);
     ("TD3", 15000)].

(** The advisory loop, run with a given table. *)
Definition check_timesteps_with (table : gmap string Z)
    (algorithms : list string) (total_timesteps : Z) (log : list LogLine)
    : list LogLine :=
  fold_left
    (fun log algo =>
       let min_steps := default 3000 (table !! algo) in
       if (total_timesteps <? min_steps)%Z
       then log ++ [warning algo min_steps total_timesteps]
       else log)
    algorithms log.

(** The algorithms a log has warnings for, in the order of the lines. *)
Definition warned (log : list LogLine) : list string :=
  omap (fun line => match line with
                    | warning algo _ _ => Some algo
                    | error _ _ => None
                    end) log.

Lemma check_timesteps_with_eq table algorithms total_timesteps : forall log,
  check_timesteps_with table algorithms total_timesteps log =
  log ++ map (fun a => warning a (default 3000 (table !! a)) total_timesteps)
           (List.filter
              (fun a => (total_timesteps <? default 3000 (table !! a))%Z)
              algorithms).
Proof.
  unfold check_timesteps_with.
  induction algorithms as [| a l IH]; intros log; simpl.
  - now rewrite app_nil_r.
  - rewrite IH. destruct (total_timesteps <? _)%Z; [| reflexivity].
    simpl. now rewrite <- app_assoc.
Qed.

Lemma warned_warnings (floor : string -> Z) total_timesteps l :
  warned (map (fun a => warning a (floor a) total_timesteps) l) = l.
Proof.
  induction l as [| a l IH]; [reflexivity |].
  unfold warned in *. cbn. now f_equal.
Qed.

Lemma filter_sublist (P Q : string -> bool) l :
  (forall a, P a = true -> Q a = true) ->
  List.filter P l `sublist_of` List.filter Q l.
Proof.
  intros HPQ. induction l as [| a l IH]; simpl; [constructor |].
  destruct (P a) eqn:EP.
  - rewrite (HPQ a EP). now apply sublist_skip.
  - destruct (Q a); [now apply sublist_cons | exact IH].
Qed.

(** The floors of the two tables, algorithm by algorithm. *)
Lemma optimized_cases (algo : string) :
  let floor := default 3000 (MIN_TIMESTEPS_RECOMMENDED_optimized !! algo) in
  (In algo ["PPO"; "DQN"; "A2C"; "SAC"; "TD3"] /\
   min_steps algo < floor <= 15000) \/
  (~ In algo ["PPO"; "DQN"; "A2C"; "SAC"; "TD3"] /\
   min_steps algo = 3000 /\ floor = 3000).
Proof.
  destruct (decide (algo = "PPO")) as [-> | H1];
    [left; split; [simpl; tauto | vm_compute; split; [reflexivity | discriminate]] |].
  destruct (decide (algo = "DQN")) as [-> | H2];
    [left; split; [simpl; tauto | vm_compute; split; [reflexivity | discriminate]] |].
  destruct (decide (algo = "A2C")) as [-> | H3];
    [left; split; [simpl; tauto | vm_compute; split; [reflexivity | discriminate]] |].
  destruct (decide (algo = "SAC")) as [-> | H4];
    [left; split; [simpl; tauto | vm_compute; split; [reflexivity | discriminate]] |].
  destruct (decide (algo = "TD3")) as [-> | H5];
    [left; split; [simpl; tauto | vm_compute; split; [reflexivity | discriminate]] |].
  right. split.
  - simpl. intros [H | [H | [H | [H | [H | []]]]]]; congruence.
  - unfold min_steps, MIN_TIMESTEPS_RECOMMENDED,
      MIN_TIMESTEPS_RECOMMENDED_optimized. simpl.
    rewrite !lookup_insert_ne by congruence. rewrite lookup_empty.
    split; reflexivity.
Qed.

(** X4: whichever table of floors the advisory loop runs with, it only
    appends to the log, one warning line per requested algorithm that is
    below its floor (3000 for a name outside the table), in request
    order, each line carrying that floor and the requested number of
    steps; the log is left as it was exactly when every requested
    algorithm is at or above its floor. With the table the code was
    updated to, the floors lie between 3000 and 15000, so below 3000
    steps every requested algorithm is warned. *)
Theorem advisory_warns_exactly_below_floor
    (table : gmap string Z) (algorithms : list string) (total_timesteps : Z)
    (log0 : list LogLine) :
  let floor := fun a => default 3000 (table !! a) in
  let below :=
    List.filter (fun a => (total_timesteps <? floor a)%Z) algorithms in
  check_timesteps_with table algorithms total_timesteps log0 =
    log0 ++ map (fun a => warning a (floor a) total_timesteps) below /\
  below `sublist_of` algorithms /\
  (forall a, a ∈ below <-> a ∈ algorithms /\ total_timesteps < floor a) /\
  (check_timesteps_with table algorithms total_timesteps log0 = log0 <->
   Forall (fun a => floor a <= total_timesteps) algorithms) /\
  (forall a,
     3000 <= default 3000 (MIN_TIMESTEPS_RECOMMENDED_optimized !! a)
          <= 15000) /\
  (total_timesteps < 3000 ->
   warned (check_timesteps_with MIN_TIMESTEPS_RECOMMENDED_optimized
             algorithms total_timesteps []) = algorithms).
Proof.
  intros floor below.
  assert (Heq : check_timesteps_with table algorithms total_timesteps log0 =
                log0 ++ map (fun a => warning a (floor a) total_timesteps)
                            below)
    by apply check_timesteps_with_eq.
  assert (Hrange : forall a,
            3000 <= default 3000 (MIN_TIMESTEPS_RECOMMENDED_optimized !! a)
                 <= 15000).
  { intros a. pose proof (optimized_cases a) as H. cbv zeta in H.
    assert (Hmin : 3000 <= min_steps a).
    { unfold min_steps, MIN_TIMESTEPS_RECOMMENDED. simpl.
      repeat (rewrite lookup_insert; case_decide; [simpl; lia |]).
      rewrite lookup_empty. simpl. lia. }
    destruct H as [[_ H] | [_ [_ H]]]; lia. }
  split; [exact Heq | split; [| split; [| split; [| split]]]].
  - unfold below. clear. induction algorithms as [| a l IH]; simpl;
      [constructor |].
    destruct (total_timesteps <? floor a)%Z;
      [now apply sublist_skip | now apply sublist_cons].
  - intros a. unfold below.
    rewrite list_elem_of_In, List.filter_In, <- list_elem_of_In, Z.ltb_lt.
    reflexivity.
  - rewrite Heq. split.
    + intros H. rewrite <- (app_nil_r log0) in H at 2.
      apply app_inv_head, map_eq_nil in H.
      apply Forall_forall. intros a Ha.
      destruct (Z.ltb_spec total_timesteps (floor a)) as [Hlt | Hge];
        [| exact Hge].
      assert (Hin : In a below)
        by (apply List.filter_In; split;
            [now apply list_elem_of_In | now apply Z.ltb_lt]).
      rewrite H in Hin. contradiction.
    + intros H. replace below with (@nil string); [apply app_nil_r |].
      symmetry. unfold below. clear Heq.
      induction algorithms as [| a l IH]; [reflexivity |]. simpl.
      apply Forall_cons in H. destruct H as [Ha Hl].
      destruct (Z.ltb_spec total_timesteps (floor a)); [lia | now apply IH].
  - exact Hrange.
  - intros Hsmall. rewrite check_timesteps_with_eq. simpl.
    rewrite warned_warnings. clear Heq.
    induction algorithms as [| a l IH]; [reflexivity |]. simpl.
    destruct (Z.ltb_spec total_timesteps
                (default 3000 (MIN_TIMESTEPS_RECOMMENDED_optimized !! a)))
      as [_ | Hge]; [now f_equal |].
    specialize (Hrange a). lia.
Qed.

(** X13: the optimisation note raised the floor of each of the five
    algorithms and left the floor of any other name at 3000; run with the
    raised table, the advisory loop warns every algorithm it warned
    before (in the same order, and possibly more), warns nobody from
    15000 steps on, and now warns A2C at 5000 steps, which the earlier
    table let pass. *)
Theorem raised_floors_keep_warnings
    (algorithms : list string) (total_timesteps : Z) (log0 : list LogLine) :
  check_timesteps algorithms total_timesteps log0 =
    check_timesteps_with MIN_TIMESTEPS_RECOMMENDED algorithms total_timesteps
      log0 /\
  warned (check_timesteps algorithms total_timesteps []) `sublist_of`
    warned (check_timesteps_with MIN_TIMESTEPS_RECOMMENDED_optimized
              algorithms total_timesteps []) /\
  (15000 <= total_timesteps ->
   check_timesteps_with MIN_TIMESTEPS_RECOMMENDED_optimized algorithms
     total_timesteps log0 = log0) /\
  (forall algo, ~ In algo ["PPO"; "DQN"; "A2C"; "SAC"; "TD3"] ->
   default 3000 (MIN_TIMESTEPS_RECOMMENDED_optimized !! algo) = 3000) /\
  warned (check_timesteps ["A2C"] 5000 []) = [] /\
  warned (check_timesteps_with MIN_TIMESTEPS_RECOMMENDED_optimized
            ["A2C"] 5000 []) = ["A2C"].
Proof.
  assert (Hle : forall a,
            min_steps a <=
            default 3000 (MIN_TIMESTEPS_RECOMMENDED_optimized !! a) <= 15000).
  { intros a. destruct (optimized_cases a) as [[_ H] | [_ [H1 H2]]];
      cbv zeta in *; lia. }
  split; [reflexivity | split; [| split; [| split; [| split]]]].
  - change (check_timesteps algorithms total_timesteps [])
      with (check_timesteps_with MIN_TIMESTEPS_RECOMMENDED algorithms
              total_timesteps []).
    rewrite !check_timesteps_with_eq. simpl.
    rewrite !warned_warnings. apply filter_sublist.
    intros a Ha. apply Z.ltb_lt in Ha. apply Z.ltb_lt.
    specialize (Hle a). unfold min_steps in Hle. lia.
  - intros Hbig. rewrite check_timesteps_with_eq.
    replace (List.filter _ algorithms) with (@nil string);
      [apply app_nil_r |].
    symmetry. induction algorithms as [| a l IH]; [reflexivity |]. simpl.
    destruct (total_timesteps <? _)%Z eqn:E; [| exact IH].
    apply Z.ltb_lt in E. specialize (Hle a). lia.
  - intros algo Hnot.
    destruct (optimized_cases algo) as [[Hin _] | [_ [_ H]]];
      [contradiction | exact H].
  - reflexivity.
  - reflexivity.
Qed.

End Advisory.

(** ** What the training page shows while it polls (AgentTraining.tsx) *)

Module TrainingPolling.
Import TrainingService TrainingPage.
Local Open Scope list_scope.

(** The response of the last request that succeeded. *)
Definition last_resolved (rs : list Fetch) : option TrainingResponse :=
  fold_left
    (fun acc r => match r with resolved d => Some d | rejected _ => acc end)
    rs None.

Definition is_rejected (r : Fetch) : bool :=
  match r with
  | resolved _ => false
  | rejected _ => true
  end.

Lemma last_resolved_snoc rs r :
  last_resolved (rs ++ [r]) =
  match r with
  | resolved d => Some d
  | rejected _ => last_resolved rs
  end.
Proof. unfold last_resolved. rewrite fold_left_app. reflexivity. Qed.

Lemma run_snoc rs r s : run (rs ++ [r]) s = tick r (run rs s).
Proof. unfold run. rewrite fold_left_app. reflexivity. Qed.

(** X5: as long as the polling of the training page has not stopped, and
    with the answers handled in the order given, the page shows the
    progress and the results of the last request that succeeded (those it
    had before if none did), the training flag is untouched, and the only
    trace of the failed requests is one console line each: no message is
    shown to the user. *)
Theorem polling_shows_last_good_response (rs : list Fetch) (s : Page) :
  polling (run rs s) = true ->
  st_progress (run rs s) =
    match last_resolved rs with
    | Some d => progress d
    | None => st_progress s
    end /\
  st_results (run rs s) =
    match last_resolved rs with
    | Some d => results d
    | None => st_results s
    end /\
  st_training (run rs s) = st_training s /\
  notices (run rs s) =
    notices s ++
    map (fun _ => console_error "Error fetching progress:")
        (List.filter is_rejected rs).
Proof.
  induction rs as [| r rs IH] using rev_ind; intros Hpoll.
  - simpl. rewrite app_nil_r. repeat split; reflexivity.
  - rewrite run_snoc in *. rewrite polling_tick in Hpoll.
    apply andb_prop in Hpoll. destruct Hpoll as [Hp Hr].
    destruct (IH Hp) as (Hpr & Hres & Htr & Hn).
    rewrite last_resolved_snoc, List.filter_app, map_app.
    unfold polling in Hp. unfold tick.
    destruct (timer (run rs s)) as [i |]; [| discriminate].
    destruct r as [d | e]; simpl in *.
    + apply negb_true_iff in Hr. rewrite Hr. simpl.
      rewrite app_nil_r. repeat split; assumption.
    + rewrite Hn, app_assoc. repeat split; assumption.
Qed.

Definition halfway_progress : TrainingProgress :=
  {| algorithm := "PPO"; epoch := 2500; totalEpochs := 5000;
     loss := 0.5%Q; reward := 1%Q; status := training |}.

Lemma polling_shows_last_good_response_witness :
  polling (run [resolved {| jobId := "job"; progress := [halfway_progress];
                            results := [] |};
                rejected "timeout"]
             (startTraining "job" initial)) = true /\
  st_progress
    (run [resolved {| jobId := "job"; progress := [halfway_progress];
                      results := [] |};
          rejected "timeout"]
       (startTraining "job" initial)) = [halfway_progress].
Proof.
  assert (H : polling
                (run [resolved {| jobId := "job";
                                  progress := [halfway_progress];
                                  results := [] |};
                      rejected "timeout"]
                   (startTraining "job" initial)) = true) by reflexivity.
  split; [exact H |].
  exact (proj1 (polling_shows_last_good_response _ _ H)).
Defined.

(** *** Requests in flight and the end of the polling *)

(** What happens to the polling page, one event at a time: the interval
    fires, that is the callback starts and sends a request, or a request
    sent earlier settles and the rest of its callback runs. A request
    takes its time, so that several can be in flight, and the interval
    may be cleared while some are. *)
Inductive Event : Type :=
| fires
| settles (r : Fetch).

(** The page, the number of requests in flight and the number of requests
    sent so far. *)
Record Poller : Type := {
  page : Page;
  in_flight : nat;
  sent : nat
}.

(** A cleared interval does not fire; the code after [await] runs for
    every request that settles, whether the interval still exists or
    not. An answer without a request in flight is no event of the
    page. *)
Definition step (w : Poller) (e : Event) : Poller :=
  match e with
  | fires =>
      match timer (page w) with
      | Some _ =>
          {| page := page w; in_flight := S (in_flight w);
             sent := S (sent w) |}
      | None => w
      end
  | settles r =>
      match in_flight w with
      | S n => {| page := poll r (page w); in_flight := n; sent := sent w |}
      | O => w
      end
  end.

Definition steps (events : list Event) (w : Poller) : Poller :=
  fold_left step events w.

(** The answers that reached the page, in the order in which they were
    handled. *)
Fixpoint handled (events : list Event) (w : Poller) : list Fetch :=
  match events with
  | [] => []
  | e :: events' =>
      match e, in_flight w with
      | settles r, S _ => r :: handled events' (step w e)
      | _, _ => handled events' (step w e)
      end
  end.

(** The code after [await], answer after answer. *)
Definition continue (answers : list Fetch) (s : Page) : Page :=
  fold_left (fun acc r => poll r acc) answers s.

(** How often the page has announced the end of a training. *)
Definition announced (s : Page) : nat :=
  length (List.filter
            (fun n => match n with
                      | msg_success text =>
                          String.eqb text "Training completed!"
                      | _ => false
                      end)
            (notices s)).

Lemma continue_snoc answers r s :
  continue (answers ++ [r]) s = poll r (continue answers s).
Proof. unfold continue. rewrite fold_left_app. reflexivity. Qed.

Lemma steps_page events : forall w,
  page (steps events w) = continue (handled events w) (page w).
Proof.
  induction events as [| e events IH]; intros w; [reflexivity |].
  simpl. unfold steps in IH. rewrite IH.
  destruct e as [| r]; simpl.
  - destruct (in_flight w); destruct (timer (page w)); reflexivity.
  - destruct (in_flight w); reflexivity.
Qed.

Lemma continue_shows answers : forall s,
  st_progress (continue answers s) =
    match last_resolved answers with
    | Some d => progress d
    | None => st_progress s
    end /\
  st_results (continue answers s) =
    match last_resolved answers with
    | Some d => results d
    | None => st_results s
    end.
Proof.
  induction answers as [| r answers IH] using rev_ind; intros s;
    [split; reflexivity |].
  rewrite continue_snoc, last_resolved_snoc.
  destruct (IH s) as [Hp Hr].
  destruct r as [d | e]; simpl;
    [destruct (allCompleted d); split; reflexivity | split; assumption].
Qed.

Lemma announced_poll r s :
  announced (poll r s) = (announced s + if stops r then 1 else 0)%nat.
Proof.
  unfold announced. destruct r as [d | e]; simpl.
  - destruct (allCompleted d); simpl; [| lia].
    rewrite List.filter_app, length_app. reflexivity.
  - rewrite List.filter_app, length_app. simpl. lia.
Qed.

Lemma announced_continue answers : forall s,
  announced (continue answers s) =
  (announced s + length (List.filter stops answers))%nat.
Proof.
  induction answers as [| r answers IH]; intros s; simpl; [lia |].
  unfold continue in IH. rewrite IH, announced_poll.
  destruct (stops r); simpl; lia.
Qed.

Lemma polling_continue answers : forall s,
  polling (continue answers s) =
  polling s && forallb (fun r => negb (stops r)) answers.
Proof.
  induction answers as [| r answers IH]; intros s; simpl.
  - now rewrite andb_true_r.
  - unfold continue in IH. rewrite IH, polling_poll. now rewrite andb_assoc.
Qed.

Lemma training_continue answers : forall s,
  st_training s = false -> st_training (continue answers s) = false.
Proof.
  induction answers as [| r answers IH]; intros s Hs; [exact Hs |].
  simpl. apply IH. destruct r as [d | e]; simpl;
    [destruct (allCompleted d) |]; simpl; auto.
Qed.

(** With the interval cleared nothing is sent, and only what is in flight
    can still be handled. *)
Lemma steps_cleared events : forall w,
  polling (page w) = false ->
  sent (steps events w) = sent w /\
  (length (handled events w) + in_flight (steps events w) = in_flight w)%nat.
Proof.
  induction events as [| e events IH]; intros w Hw; simpl; [split; lia |].
  assert (Hstep : polling (page (step w e)) = false /\
                  sent (step w e) = sent w /\
                  (match e, in_flight w with
                   | settles _, S n => in_flight (step w e) = n
                   | _, _ => in_flight (step w e) = in_flight w
                   end)).
  { destruct e as [| r]; simpl.
    - assert (Et : timer (page w) = None).
      { unfold polling in Hw.
        destruct (timer (page w)); [discriminate | reflexivity]. }
      rewrite Et. destruct (in_flight w); repeat split; auto.
    - destruct (in_flight w) as [| n] eqn:Ef; simpl;
        [repeat split; auto |].
      rewrite polling_poll, Hw. repeat split; reflexivity. }
  destruct Hstep as (Hp & Hs & Hf).
  destruct (IH (step w e) Hp) as [IHs IHf]. unfold steps in *.
  rewrite IHs, Hs. split; [reflexivity |].
  remember (step w e) as w1 eqn:Hw1. clear Hw1.
  destruct e as [| r]; destruct (in_flight w) as [| n]; simpl in *; lia.
Qed.

(** X15: whatever the order in which the interval fires and the requests
    settle, the page is what the code after [await] makes of the answers
    that settled, in that order: it shows the progress and results of
    the last resolved one and has announced 'Training completed!' once
    per answer in which every entry was completed or failed. After such
    an answer the interval is cleared for good and no request is sent
    any more, but the requests still in flight, and only they, are
    handled when they settle: they can replace what the page shows and
    announce the end again; the training flag, once off, stays off. A
    request that settles before the interval fires again is handled as
    one atomic run of the callback. *)
Theorem answers_in_flight_still_land (events : list Event) (w : Poller) :
  let w' := steps events w in
  let answers := handled events w in
  page w' = continue answers (page w) /\
  st_progress (page w') =
    match last_resolved answers with
    | Some d => progress d
    | None => st_progress (page w)
    end /\
  st_results (page w') =
    match last_resolved answers with
    | Some d => results d
    | None => st_results (page w)
    end /\
  announced (page w') =
    (announced (page w) + length (List.filter stops answers))%nat /\
  (polling (page w') = true <->
   polling (page w) = true /\
   forallb (fun r => negb (stops r)) answers = true) /\
  (polling (page w) = false ->
   sent w' = sent w /\
   (length answers + in_flight w' = in_flight w)%nat) /\
  (st_training (page w) = false -> st_training (page w') = false) /\
  (in_flight w = O -> forall r,
   page (steps [fires; settles r] w) = tick r (page w)).
Proof.
  intros w' answers.
  assert (Hpage : page w' = continue answers (page w)) by apply steps_page.
  split; [exact Hpage |]. rewrite Hpage.
  destruct (continue_shows answers (page w)) as [Hp Hr].
  split; [exact Hp | split; [exact Hr | split; [| split; [| split; [| split]]]]].
  - apply announced_continue.
  - rewrite polling_continue. apply andb_true_iff.
  - intros Hw. now apply steps_cleared.
  - apply training_continue.
  - intros Hidle r. unfold steps, tick. simpl.
    destruct (timer (page w)) eqn:Et; simpl.
    + reflexivity.
    + rewrite Hidle. reflexivity.
Qed.

Definition all_done : TrainingResponse :=
  {| jobId := "job"; progress := [done_progress]; results := [] |}.

Definition still_training : TrainingResponse :=
  {| jobId := "job"; progress := [halfway_progress]; results := [] |}.

Definition started : Poller :=
  {| page := startTraining "job" initial; in_flight := 0; sent := 0 |}.

(** Two requests are in flight when the first settles with everything
    completed; the second then settles with an answer from before the
    end: the bar goes back to halfway on a page that no longer polls. A
    third firing sends nothing. *)
Example late_answer_overwrites :
  let w := steps [fires; fires; settles (resolved all_done);
                  settles (resolved still_training); fires] started in
  polling (page w) = false /\ st_training (page w) = false /\
  st_progress (page w) = [halfway_progress] /\
  sent w = 2%nat /\ in_flight w = 0%nat /\ announced (page w) = 1%nat.
Proof. repeat split; reflexivity. Qed.

(** Both requests in flight settle with everything completed: the end is
    announced twice. *)
Example end_announced_twice :
  announced
    (page (steps [fires; fires; settles (resolved all_done);
                  settles (resolved all_done)] started)) = 2%nat.
Proof. reflexivity. Qed.

End TrainingPolling.

(** ** The handlers of the training page and the browser storage *)

Module TrainingSession.
Import TrainingService.
Local Open Scope list_scope.

(** [interface TrainingConfig] (trainingService.ts); absent optional
    fields are [None]. *)
Record TrainingConfig : Type := {
  symbols : list string;
  algorithms : list string;
  startDate : option string;
  endDate : option string;
  trainTestSplit : option Q;
  totalTimesteps : option Z
}.

(** The values the form hands to [startTraining]; the two dates of the
    range are taken as already formatted ([format('YYYY-MM-DD')]). *)
Record FormValues : Type := {
  v_symbols : list string;
  v_algorithms : list string;
  v_dateRange : option (string * string);
  v_trainTestSplit : option Q;
  v_totalTimesteps : option Z
}.

(** [interface TrainingHistoryItem], the fields the page reads. *)
Record TrainingHistoryItem : Type := {
  h_jobId : string;
  h_completed : bool
}.

(** The requests the page sends. *)
Inductive ApiCall : Type :=
| post_training_start (config : TrainingConfig)
| get_training_progress (jobId : string)
| get_training_history.

(** The component state, with the polling part as in [TrainingPage]. *)
Record Session : Type := {
  loading : bool;
  page : TrainingPage.Page;
  jobId : option string;
  history : list TrainingHistoryItem;
  showHistory : bool
}.

(** The component, the [localStorage] of the browser and the requests
    sent so far. *)
Record World : Type := {
  session : Session;
  localStorage : gmap string string;
  calls : list ApiCall
}.

(** The state of a component that has just been mounted. *)
Definition fresh : Session :=
  {| loading := false; page := TrainingPage.initial; jobId := None;
     history := []; showHistory := false |}.

(** A string (or null) used as a condition: null and the empty string are
    falsy. *)
Definition truthy (o : option string) : bool :=
  match o with
  | Some (String _ _) => true
  | Some EmptyString | None => false
  end.

(** [a || b] on strings. *)
Definition or_else (o : option string) (dflt : string) : string :=
  match o with
  | Some (String c s) => String c s
  | Some EmptyString | None => dflt
  end.

(** [values.trainTestSplit ? values.trainTestSplit / 100 : undefined] *)
Definition split_of (v : option Q) : option Q :=
  match v with
  | Some x => if Qeq_bool x 0 then None else Some (x / 100)%Q
  | None => None
  end.

(** The argument of [trainingService.startTraining]. *)
Definition config_of (values : FormValues) : TrainingConfig :=
  {| symbols := v_symbols values;
     algorithms := v_algorithms values;
     startDate := fst <$> v_dateRange values;
     endDate := snd <$> v_dateRange values;
     trainTestSplit := split_of (v_trainTestSplit values);
     totalTimesteps := v_totalTimesteps values |}.

Definition with_page (f : TrainingPage.Page -> TrainingPage.Page)
    (s : Session) : Session :=
  {| loading := loading s; page := f (page s); jobId := jobId s;
     history := history s; showHistory := showHistory s |}.

Definition notify (n : Notice) (p : TrainingPage.Page) : TrainingPage.Page :=
  {| TrainingPage.st_training := TrainingPage.st_training p;
     TrainingPage.st_progress := TrainingPage.st_progress p;
     TrainingPage.st_results := TrainingPage.st_results p;
     TrainingPage.pollingInterval := TrainingPage.pollingInterval p;
     TrainingPage.timer := TrainingPage.timer p;
     TrainingPage.notices := TrainingPage.notices p ++ [n] |}.

Definition show (progressData : TrainingResponse) (p : TrainingPage.Page)
    : TrainingPage.Page :=
  {| TrainingPage.st_training := TrainingPage.st_training p;
     TrainingPage.st_progress := progress progressData;
     TrainingPage.st_results := results progressData;
     TrainingPage.pollingInterval := TrainingPage.pollingInterval p;
     TrainingPage.timer := TrainingPage.timer p;
     TrainingPage.notices := TrainingPage.notices p |}.

(** [loadJobProgress]: the progress and results of the job on success, a
    console line on failure. *)
Definition loadJobProgress (id : string) (r : TrainingPage.Fetch) (w : World)
    : World :=
  {| session :=
       match r with
       | TrainingPage.resolved progressData =>
           with_page (show progressData) (session w)
       | TrainingPage.rejected _ =>
           with_page (notify (console_error "Failed to load job progress:"))
                     (session w)
       end;
     localStorage := localStorage w;
     calls := calls w ++ [get_training_progress id] |}.

Definition setJobId (id : string) (w : World) : World :=
  {| session :=
       {| loading := loading (session w); page := page (session w);
          jobId := Some id; history := history (session w);
          showHistory := showHistory (session w) |};
     localStorage := localStorage w; calls := calls w |}.

(** [loadHistoricalJob]: [setJobId], [await loadJobProgress],
    [setShowHistory(false)] and the success message. *)
Definition loadHistoricalJob (histJobId : string) (r : TrainingPage.Fetch)
    (w : World) : World :=
  let w1 := loadJobProgress histJobId r (setJobId histJobId w) in
  {| session :=
       {| loading := loading (session w1);
          page := notify (msg_success "Loaded historical training job")
                    (page (session w1));
          jobId := jobId (session w1); history := history (session w1);
          showHistory := false |};
     localStorage := localStorage w1; calls := calls w1 |}.

(** The effect run on mount: [const lastJobId =
    localStorage.getItem('lastTrainingJobId'); if (lastJobId && !jobId)
    { setJobId(lastJobId); loadJobProgress(lastJobId) }]. *)
Definition mount (r : TrainingPage.Fetch) (w : World) : World :=
  match localStorage w !! "lastTrainingJobId" with
  | Some lastJobId =>
      if truthy (Some lastJobId) && negb (truthy (jobId (session w)))
      then loadJobProgress lastJobId r (setJobId lastJobId w)
      else w
  | None => w
  end.

(** The effect the backtesting page runs on mount: the value it puts in
    the field [trainingJobId] of its form, if any. *)
Definition backtesting_prefill (storage : gmap string string) : option string :=
  match storage !! "lastTrainingJobId" with
  | Some lastJobId => if truthy (Some lastJobId) then Some lastJobId else None
  | None => None
  end.

(** How the start request ends: with the job id of the response, or with
    an error whose [response.data.message] may be missing. *)
Inductive StartOutcome : Type :=
| started (jobId : string)
| start_failed (message : option string).

(** [startTraining], the whole handler. *)
Definition startTraining (values : FormValues) (r : StartOutcome) (w : World)
    : World :=
  let s := session w in
  let sent := calls w ++ [post_training_start (config_of values)] in
  match r with
  | started job =>
      {| session :=
           {| loading := false;
              page := TrainingPage.startTraining job (page s);
              jobId := Some job; history := history s;
              showHistory := showHistory s |};
         localStorage := <["lastTrainingJobId" := job]> (localStorage w);
         calls := sent |}
  | start_failed message =>
      {| session :=
           {| loading := false;
              page := notify (msg_error
                                (or_else message "Failed to start training"))
                        (page s);
              jobId := jobId s; history := history s;
              showHistory := showHistory s |};
         localStorage := localStorage w;
         calls := sent |}
  end.

(** The browser after the component went away: storage and requests
    stay, the next mount starts from a fresh component. *)
Definition remount (w : World) : World :=
  {| session := fresh; localStorage := localStorage w; calls := calls w |}.

Lemma or_else_not_empty o dflt : dflt <> "" -> or_else o dflt <> "".
Proof. intros H. destruct o as [[| c s] |]; simpl; congruence. Qed.

(** X6: the job id of a successful start (not the empty string) is what
    the backtesting page pre-fills on its next mount and what the
    training page loads when it is mounted again, with one progress
    request for that id; a start that fails leaves the storage, the timer,
    the training flag and the job id as they were, and shows an error
    text that is never empty; [loading] is off after both. *)
Theorem started_job_is_remembered
    (values : FormValues) (job : string) (w : World) :
  job <> "" ->
  let w' := startTraining values (started job) w in
  loading (session w') = false /\
  backtesting_prefill (localStorage w') = Some job /\
  (forall r,
     let w'' := mount r (remount w') in
     jobId (session w'') = Some job /\
     calls w'' = calls w' ++ [get_training_progress job] /\
     forall progressData, r = TrainingPage.resolved progressData ->
       TrainingPage.st_progress (page (session w'')) = progress progressData) /\
  (forall message,
     let failed := startTraining values (start_failed message) w in
     loading (session failed) = false /\
     localStorage failed = localStorage w /\
     jobId (session failed) = jobId (session w) /\
     TrainingPage.timer (page (session failed)) =
       TrainingPage.timer (page (session w)) /\
     TrainingPage.st_training (page (session failed)) =
       TrainingPage.st_training (page (session w)) /\
     exists text,
       last (TrainingPage.notices (page (session failed))) =
         Some (msg_error text) /\ text <> "").
Proof.
  intros Hjob w'.
  destruct job as [| c job]; [congruence |].
  split; [reflexivity | split; [| split]].
  - unfold backtesting_prefill. subst w'. cbn [localStorage startTraining].
    rewrite lookup_insert_eq. reflexivity.
  - intros r w''. subst w'' w'. unfold mount, remount.
    cbn [localStorage startTraining session jobId fresh].
    rewrite lookup_insert_eq. cbn [truthy andb negb].
    split; [destruct r; reflexivity | split; [reflexivity |]].
    intros progressData ->. reflexivity.
  - intros message failed. subst failed. simpl.
    repeat split; try reflexivity.
    exists (or_else message "Failed to start training").
    split; [apply last_snoc | apply or_else_not_empty; discriminate].
Qed.

Definition some_values : FormValues :=
  {| v_symbols := ["AAPL"]; v_algorithms := ["PPO"; "DQN"];
     v_dateRange := Some ("2022-01-03", "2024-12-31");
     v_trainTestSplit := Some 80%Q; v_totalTimesteps := Some 10000%Z |}.

Definition first_visit : World :=
  {| session := fresh; localStorage := ∅; calls := [] |}.

Lemma started_job_is_remembered_witness :
  "13a93121" <> "" /\
  backtesting_prefill
    (localStorage (startTraining some_values (started "13a93121") first_visit))
  = Some "13a93121" /\
  backtesting_prefill
    (localStorage
       (startTraining some_values (start_failed None) first_visit)) = None.
Proof.
  assert (H : "13a93121" <> "") by discriminate.
  split; [exact H | split; [| reflexivity]].
  exact (proj1 (proj2 (started_job_is_remembered some_values "13a93121"
                         first_visit H))).
Defined.

(** X7: after [loadHistoricalJob] the page is on the historical job id,
    the history panel is closed and the success message is the last one
    shown, whether the request succeeded or not; when it succeeded the
    progress and results are those of the response, when it failed they
    are still those shown before (of whatever job that was); a running
    poll is not touched. *)
Theorem historical_job_loaded_even_on_failure
    (histJobId : string) (r : TrainingPage.Fetch) (w : World) :
  let w' := loadHistoricalJob histJobId r w in
  jobId (session w') = Some histJobId /\
  showHistory (session w') = false /\
  last (TrainingPage.notices (page (session w'))) =
    Some (msg_success "Loaded historical training job") /\
  TrainingPage.timer (page (session w')) =
    TrainingPage.timer (page (session w)) /\
  calls w' = calls w ++ [get_training_progress histJobId] /\
  (forall progressData, r = TrainingPage.resolved progressData ->
     TrainingPage.st_progress (page (session w')) = progress progressData /\
     TrainingPage.st_results (page (session w')) = results progressData) /\
  (forall e, r = TrainingPage.rejected e ->
     TrainingPage.st_progress (page (session w')) =
       TrainingPage.st_progress (page (session w)) /\
     TrainingPage.st_results (page (session w')) =
       TrainingPage.st_results (page (session w))).
Proof.
  intros w'. subst w'. unfold loadHistoricalJob.
  destruct r as [d | e]; simpl; rewrite last_snoc;
    repeat split; try reflexivity; congruence.
Qed.

End TrainingSession.

(** ** JavaScript values, string order, [Set] and [Array] helpers *)

Module Js.
Local Open Scope list_scope.

(** The values the chart rows hold. *)
Inductive Value : Type :=
| undefined
| number (x : Q)
| text (s : string).

(** An object used as a dictionary. *)
Abbreviation Object := (gmap string Value).

(** The order of [Array.prototype.sort()] without comparator on strings:
    code unit by code unit (here: byte by byte, the same thing for ASCII
    text such as ISO dates). *)
Definition le (a b : string) : Prop := String.leb a b = true.
Definition lt (a b : string) : Prop := String.ltb a b = true.

Lemma ascii_compare_refl c : Ascii.compare c c = Eq.
Proof. unfold Ascii.compare. apply N.compare_refl. Qed.

Lemma string_compare_refl s : String.compare s s = Eq.
Proof.
  induction s as [| c s IH]; simpl; [reflexivity |].
  now rewrite ascii_compare_refl.
Qed.

Lemma ascii_compare_lt_trans a b c :
  Ascii.compare a b = Lt -> Ascii.compare b c = Lt -> Ascii.compare a c = Lt.
Proof. unfold Ascii.compare. rewrite !N.compare_lt_iff. lia. Qed.

Lemma string_compare_lt_trans : forall s1 s2 s3,
  String.compare s1 s2 = Lt -> String.compare s2 s3 = Lt ->
  String.compare s1 s3 = Lt.
Proof.
  induction s1 as [| c1 s1 IH]; intros [| c2 s2] [| c3 s3]; simpl;
    try congruence.
  destruct (Ascii.compare c1 c2) eqn:E12; try discriminate;
    destruct (Ascii.compare c2 c3) eqn:E23; try discriminate; intros H1 H2.
  - apply Ascii.compare_eq_iff in E12, E23. subst.
    rewrite ascii_compare_refl. eauto.
  - apply Ascii.compare_eq_iff in E12. subst. now rewrite E23.
  - apply Ascii.compare_eq_iff in E23. subst. now rewrite E12.
  - now rewrite (ascii_compare_lt_trans _ _ _ E12 E23).
Qed.

Lemma le_cases a b : le a b <-> a = b \/ lt a b.
Proof.
  unfold le, lt, String.leb, String.ltb. split.
  - destruct (String.compare a b) eqn:E; try discriminate; intros _.
    + left. now apply String.compare_eq_iff.
    + now right.
  - intros [-> | H]; [now rewrite string_compare_refl |].
    destruct (String.compare a b); try discriminate; reflexivity.
Qed.

Lemma lt_trans a b c : lt a b -> lt b c -> lt a c.
Proof.
  unfold lt, String.ltb.
  destruct (String.compare a b) eqn:E1; try discriminate.
  destruct (String.compare b c) eqn:E2; try discriminate.
  intros _ _. now rewrite (string_compare_lt_trans _ _ _ E1 E2).
Qed.

Lemma lt_irrefl a : ~ lt a a.
Proof. unfold lt, String.ltb. now rewrite string_compare_refl. Qed.

#[global] Instance le_dec : RelDecision le.
Proof. intros a b. unfold le. apply _. Defined.

#[global] Instance le_total : Total le.
Proof. intros a b. apply String.leb_total. Qed.

#[global] Instance le_transitive : Transitive le.
Proof.
  intros a b c. rewrite !le_cases. intros [-> | H1] [-> | H2]; auto.
  right. eapply lt_trans; eauto.
Qed.

(** [array.sort()] on strings. *)
Definition sort (xs : list string) : list string := merge_sort le xs.

(** [set.add(x)] on a [Set], kept in insertion order. *)
Definition Set_add (set : list string) (x : string) : list string :=
  if decide (x ∈ set) then set else set ++ [x].

(** [array.indexOf(x)]: the first position of [x], [None] for -1. *)
Fixpoint indexOf (xs : list string) (x : string) : option nat :=
  match xs with
  | [] => None
  | y :: ys => if decide (y = x) then Some O else S <$> indexOf ys x
  end.

(** [array[index]] read as a chart value: [undefined] out of range. *)
Definition element (xs : list Q) (index : nat) : Value :=
  match xs !! index with
  | Some v => number v
  | None => undefined
  end.

(** [object[key] = value] for a number, a string or [undefined]: an own
    property is written, except under the key [__proto__], the accessor
    inherited from [Object.prototype], whose setter ignores a value that
    is neither an object nor [null]. *)
Definition Object_set (key : string) (value : Value) (object : Object)
    : Object :=
  if decide (key = "__proto__") then object else <[key := value]> object.

(** The property names an object literal inherits from
    [Object.prototype]: [object[name]] finds a value for them without any
    own property. *)
Definition Object_prototype : list string :=
  ["constructor"; "hasOwnProperty"; "isPrototypeOf"; "propertyIsEnumerable";
   "toLocaleString"; "toString"; "valueOf"; "__proto__";
   "__defineGetter__"; "__defineSetter__"; "__lookupGetter__";
   "__lookupSetter__"].

(** [Object.values(object)] for an object used as a dictionary; the order
    of the values is that of the keys in the map. *)
Definition Object_values {A : Type} (object : gmap string A) : list A :=
  (map_to_list object).*2.

Lemma Object_set_ne key value object k :
  key <> k -> Object_set key value object !! k = object !! k.
Proof.
  intros Hne. unfold Object_set. case_decide; [reflexivity |].
  now apply lookup_insert_ne.
Qed.

Lemma Object_set_eq key value object :
  key <> "__proto__" -> Object_set key value object !! key = Some value.
Proof.
  intros Hne. unfold Object_set. case_decide; [contradiction |].
  apply lookup_insert_eq.
Qed.

Lemma Set_add_elem set x d : d ∈ Set_add set x <-> d ∈ set \/ d = x.
Proof.
  unfold Set_add. destruct (decide (x ∈ set)) as [Hin | Hnot].
  - split; [auto |]. intros [H | ->]; assumption.
  - rewrite elem_of_app, list_elem_of_singleton. reflexivity.
Qed.

Lemma Set_add_NoDup set x : NoDup set -> NoDup (Set_add set x).
Proof.
  intros Hnd. unfold Set_add. destruct (decide (x ∈ set)) as [Hin | Hnot];
    [exact Hnd |].
  apply NoDup_app. split; [exact Hnd | split].
  - intros y Hy Hx. apply list_elem_of_singleton in Hx. subst. contradiction.
  - apply NoDup_singleton.
Qed.

Lemma fold_Set_add_elem xs : forall set d,
  d ∈ fold_left Set_add xs set <-> d ∈ set \/ d ∈ xs.
Proof.
  induction xs as [| x xs IH]; intros set d; simpl.
  - rewrite elem_of_nil. tauto.
  - rewrite IH, Set_add_elem, elem_of_cons. tauto.
Qed.

Lemma fold_Set_add_NoDup xs : forall set,
  NoDup set -> NoDup (fold_left Set_add xs set).
Proof.
  induction xs as [| x xs IH]; intros set H; simpl; [exact H |].
  apply IH. now apply Set_add_NoDup.
Qed.

Lemma indexOf_None xs x : indexOf xs x = None <-> x ∉ xs.
Proof.
  induction xs as [| y ys IH]; simpl.
  - split; [intros _; apply not_elem_of_nil | reflexivity].
  - destruct (decide (y = x)) as [-> | Hne].
    + split; [discriminate |]. intros H. exfalso. apply H. left.
    + rewrite not_elem_of_cons. destruct (indexOf ys x); simpl.
      * split; [discriminate |]. intros [_ H]. apply IH in H. discriminate.
      * split; [| reflexivity]. intros _. split; [congruence | now apply IH].
Qed.

Lemma indexOf_Some xs x : forall i,
  indexOf xs x = Some i ->
  xs !! i = Some x /\ forall j, (j < i)%nat -> xs !! j <> Some x.
Proof.
  induction xs as [| y ys IH]; intros i; simpl; [discriminate |].
  destruct (decide (y = x)) as [-> | Hne].
  - intros [= <-]. split; [reflexivity |]. intros j Hj. lia.
  - destruct (indexOf ys x) as [k |] eqn:E; simpl; [| discriminate].
    intros [= <-]. destruct (IH k eq_refl) as [Hk Hfirst].
    split; [exact Hk |]. intros [| j] Hj; simpl; [congruence |].
    apply Hfirst. lia.
Qed.

(** A sorted list without repetition is strictly increasing. *)
Lemma sort_strict xs : NoDup xs -> StronglySorted lt (sort xs).
Proof.
  intros Hnd.
  assert (Hs : StronglySorted le (sort xs))
    by (unfold sort; apply StronglySorted_merge_sort; apply _).
  assert (Hnd' : NoDup (sort xs))
    by (unfold sort; now rewrite merge_sort_Permutation).
  induction Hs as [| a l Hs IH Hall]; [constructor |].
  apply NoDup_cons in Hnd'. destruct Hnd' as [Ha Hl].
  constructor; [now apply IH |].
  rewrite List.Forall_forall in *. intros b Hb.
  destruct (proj1 (le_cases a b) (Hall b Hb)) as [-> | Hlt]; [| exact Hlt].
  exfalso. apply Ha. now apply list_elem_of_In.
Qed.

Lemma sort_elem xs d : d ∈ sort xs <-> d ∈ xs.
Proof. unfold sort. now rewrite merge_sort_Permutation. Qed.

End Js.

(** ** The charts of the backtesting page *)

Module BacktestCharts.
Import BacktestingService Js.
Local Open Scope list_scope.

(** [const allDates = new Set<string>(); results.forEach((result) =>
    result.dates.forEach((date) => allDates.add(date)))] *)
Definition allDates (results : list BacktestResult) : list string :=
  fold_left (fun set result => fold_left Set_add (dates result) set) results [].

(** [Array.from(allDates).sort()] *)
Definition sortedDates (results : list BacktestResult) : list string :=
  sort (allDates results).

(** The body of [results.forEach] inside the [map]: [const index =
    result.dates.indexOf(date); if (index !== -1)
    dataPoint[result.algorithm] = series[index]]. *)
Definition point (series : BacktestResult -> list Q) (date : string)
    (dataPoint : Object) (result : BacktestResult) : Object :=
  match indexOf (dates result) date with
  | Some index =>
      Object_set (algorithm result) (element (series result) index) dataPoint
  | None => dataPoint
  end.

(** The data point of one date: [{ date }] and then one key per result
    that has the date. *)
Definition dataPoint (series : BacktestResult -> list Q)
    (results : list BacktestResult) (date : string) : Object :=
  fold_left (point series date) results {["date" := text date]}.

Definition chartData (series : BacktestResult -> list Q)
    (results : list BacktestResult) : list Object :=
  map (dataPoint series results) (sortedDates results).

(** [prepareCumulativeReturnsData] *)
Definition prepareCumulativeReturnsData (results : list BacktestResult)
    : list Object :=
  match results with
  | [] => []
  | _ => chartData cumulativeReturns results
  end.

(** [prepareReturnsData] *)
Definition prepareReturnsData (results : list BacktestResult) : list Object :=
  match results with
  | [] => []
  | _ => chartData returns results
  end.

(** The palette of [getColorForAlgorithm]. *)
Definition colors : list string :=
  ["#1890ff"; "#52c41a"; "#faad14"; "#f5222d"; "#722ed1"; "#13c2c2";
   "#eb2f96"].

(** [getColorForAlgorithm]: [colors[index % colors.length]], [None] if
    that were [undefined]. *)
Definition getColorForAlgorithm (algorithm : string) (index : nat)
    : option string :=
  colors !! (index mod length colors)%nat.

Lemma allDates_elem results d :
  d ∈ allDates results <-> exists r, r ∈ results /\ d ∈ dates r.
Proof.
  unfold allDates.
  assert (H : forall set,
    d ∈ fold_left (fun set result => fold_left Set_add (dates result) set)
          results set <->
    d ∈ set \/ exists r, r ∈ results /\ d ∈ dates r).
  { induction results as [| x results IH]; intros set; simpl.
    - split; [auto |]. intros [H | (r & Hr & _)]; [exact H |].
      now apply elem_of_nil in Hr.
    - rewrite IH, fold_Set_add_elem. split.
      + intros [[H | H] | (r & Hr & Hd)]; [auto | |].
        * right. exists x. split; [left | exact H].
        * right. exists r. split; [now right | exact Hd].
      + intros [H | (r & Hr & Hd)]; [auto |].
        apply elem_of_cons in Hr. destruct Hr as [-> | Hr]; [auto |].
        right. eauto. }
  rewrite H, elem_of_nil. tauto.
Qed.

Lemma allDates_NoDup results : NoDup (allDates results).
Proof.
  unfold allDates.
  assert (H : forall set, NoDup set ->
    NoDup (fold_left (fun set result => fold_left Set_add (dates result) set)
             results set)).
  { induction results as [| x results IH]; intros set Hs; simpl; [exact Hs |].
    apply IH. now apply fold_Set_add_NoDup. }
  apply H, NoDup_nil_2.
Qed.

(** A key that is no result's algorithm is left alone. *)
Lemma fold_point_other series date results key : forall obj,
  key ∉ map algorithm results ->
  fold_left (point series date) results obj !! key = obj !! key.
Proof.
  induction results as [| x results IH]; intros obj Hkey; simpl; [reflexivity |].
  simpl in Hkey. apply not_elem_of_cons in Hkey. destruct Hkey as [Hne Hkey].
  rewrite IH by exact Hkey. unfold point.
  destruct (indexOf (dates x) date); [| reflexivity].
  apply Object_set_ne. congruence.
Qed.

Lemma fold_point_value series date results r : forall obj,
  NoDup (map algorithm results) -> r ∈ results ->
  algorithm r <> "__proto__" ->
  fold_left (point series date) results obj !! algorithm r =
  match indexOf (dates r) date with
  | Some index => Some (element (series r) index)
  | None => obj !! algorithm r
  end.
Proof.
  induction results as [| x results IH]; intros obj Hnd Hr Hproto;
    [now apply elem_of_nil in Hr |].
  simpl in Hnd. apply NoDup_cons in Hnd. destruct Hnd as [Hx Hnd].
  apply elem_of_cons in Hr. simpl. destruct Hr as [-> | Hr].
  - rewrite fold_point_other by exact Hx. unfold point.
    destruct (indexOf (dates x) date);
      [now apply Object_set_eq | reflexivity].
  - rewrite IH by assumption.
    destruct (indexOf (dates r) date); [reflexivity |].
    unfold point. destruct (indexOf (dates x) date); [| reflexivity].
    apply Object_set_ne. intros Heq. apply Hx. rewrite Heq.
    apply list_elem_of_fmap. exists r. split; [reflexivity | exact Hr].
Qed.

(** X8: the rows of both line charts stand for the same dates: every date
    of every result exactly once and no other, in strictly increasing
    order; the row at a position is the data point of the date at that
    position, and unless a result is called "date" its [date] field is
    that date. Without results there are no rows. *)
Theorem chart_rows_follow_sorted_dates (results : list BacktestResult) :
  StronglySorted lt (sortedDates results) /\
  (forall d,
     d ∈ sortedDates results <-> exists r, r ∈ results /\ d ∈ dates r) /\
  prepareCumulativeReturnsData results =
    map (dataPoint cumulativeReturns results) (sortedDates results) /\
  prepareReturnsData results =
    map (dataPoint returns results) (sortedDates results) /\
  (results = [] -> prepareCumulativeReturnsData results = []) /\
  ("date" ∉ map algorithm results ->
   map (fun row : Object => row !! "date")
       (prepareCumulativeReturnsData results) =
   map (fun d => Some (text d)) (sortedDates results) /\
   map (fun row : Object => row !! "date") (prepareReturnsData results) =
   map (fun d => Some (text d)) (sortedDates results)).
Proof.
  assert (Hc : prepareCumulativeReturnsData results =
               map (dataPoint cumulativeReturns results) (sortedDates results))
    by (destruct results; reflexivity).
  assert (Hr : prepareReturnsData results =
               map (dataPoint returns results) (sortedDates results))
    by (destruct results; reflexivity).
  split; [apply sort_strict, allDates_NoDup | split].
  { intros d. unfold sortedDates. rewrite sort_elem. apply allDates_elem. }
  split; [exact Hc | split; [exact Hr | split]].
  - intros ->. reflexivity.
  - intros Hdate. rewrite Hc, Hr, !map_map.
    split; apply map_ext; intros d; unfold dataPoint;
      rewrite fold_point_other by exact Hdate; apply lookup_singleton_eq.
Qed.

(** X9: when the results have distinct algorithm names, none of them
    "date" or "__proto__", the data point of a date holds under the name
    of a result the value of its series at the first position of that
    date in its own dates ([undefined] if the series is shorter), holds
    nothing under that name if the result does not have the date, and has
    no key besides [date] and the names. *)
Theorem chart_point_is_series_value
    (series : BacktestResult -> list Q) (results : list BacktestResult)
    (date : string) (r : BacktestResult) :
  NoDup (map algorithm results) ->
  "date" ∉ map algorithm results ->
  "__proto__" ∉ map algorithm results ->
  r ∈ results ->
  (date ∉ dates r ->
   dataPoint series results date !! algorithm r = None) /\
  (date ∈ dates r ->
   exists index,
     dates r !! index = Some date /\
     (forall j, (j < index)%nat -> dates r !! j <> Some date) /\
     dataPoint series results date !! algorithm r =
     Some (element (series r) index)) /\
  (forall key, key <> "date" -> key ∉ map algorithm results ->
   dataPoint series results date !! key = None).
Proof.
  intros Hnd Hdate Hproto Hr.
  assert (Hname : algorithm r ∈ map algorithm results)
    by (apply list_elem_of_fmap; exists r; split; [reflexivity | exact Hr]).
  assert (Hname_date : algorithm r <> "date") by congruence.
  assert (Hname_proto : algorithm r <> "__proto__") by congruence.
  pose proof (fold_point_value series date results r {["date" := text date]}
                Hnd Hr Hname_proto) as Hv.
  fold (dataPoint series results date) in Hv.
  split; [| split].
  - intros Hnot. apply indexOf_None in Hnot. rewrite Hv, Hnot.
    apply lookup_singleton_ne. congruence.
  - intros Hin. destruct (indexOf (dates r) date) as [index |] eqn:E.
    + destruct (indexOf_Some _ _ _ E) as [Hi Hfirst]. exists index.
      repeat split; assumption.
    + apply indexOf_None in E. contradiction.
  - intros key Hkey Hnot. unfold dataPoint.
    rewrite fold_point_other by exact Hnot.
    apply lookup_singleton_ne. congruence.
Qed.

Definition series_of (name : string) (ds : list string) (cs : list Q)
    : BacktestResult :=
  {| algorithm := name; type := drl; returns := cs; cumulativeReturns := cs;
     dates := ds; metrics := BacktestingPage.no_metrics |}.

Definition two_series : list BacktestResult :=
  [series_of "PPO" ["2024-01-03"; "2024-01-02"] [0.02%Q; 0.01%Q];
   series_of "BuyAndHold" ["2024-01-02"] [0.005%Q]].

Lemma chart_point_is_series_value_witness :
  NoDup (map algorithm two_series) /\
  ("date" ∉ map algorithm two_series) /\
  ("__proto__" ∉ map algorithm two_series) /\
  sortedDates two_series = ["2024-01-02"; "2024-01-03"] /\
  dataPoint cumulativeReturns two_series "2024-01-03" !! "PPO" =
    Some (number 0.02%Q) /\
  dataPoint cumulativeReturns two_series "2024-01-03" !! "BuyAndHold" = None.
Proof.
  assert (Hnd : NoDup (map algorithm two_series)) by compute_done.
  assert (Hdate : "date" ∉ map algorithm two_series) by compute_done.
  assert (Hproto : "__proto__" ∉ map algorithm two_series) by compute_done.
  split; [exact Hnd | split; [exact Hdate | split; [exact Hproto |]]].
  split; [reflexivity |].
  split; [reflexivity |].
  assert (Hr : series_of "BuyAndHold" ["2024-01-02"] [0.005%Q] ∈ two_series)
    by (right; left).
  destruct (chart_point_is_series_value cumulativeReturns two_series
              "2024-01-03" _ Hnd Hdate Hproto Hr) as (Hmissing & _ & _).
  apply Hmissing. compute_done.
Defined.

Lemma colors_NoDup : NoDup colors.
Proof. compute_done. Qed.

(** X10: every series gets one of the seven colours of the palette,
    whatever its position; two positions get the same colour exactly when
    they differ by a multiple of seven, so up to seven results are told
    apart and the eighth repeats the first. *)
Theorem chart_colours_repeat_every_seven (a b : string) (i j : nat) :
  (exists c, getColorForAlgorithm a i = Some c /\ c ∈ colors) /\
  (getColorForAlgorithm a i = getColorForAlgorithm b j <->
   (i mod 7 = j mod 7)%nat).
Proof.
  unfold getColorForAlgorithm. change (length colors) with 7%nat.
  assert (Hi : (i mod 7 < length colors)%nat)
    by (change (length colors) with 7%nat; apply Nat.mod_upper_bound; lia).
  assert (Hj : (j mod 7 < length colors)%nat)
    by (change (length colors) with 7%nat; apply Nat.mod_upper_bound; lia).
  destruct (lookup_lt_is_Some_2 colors _ Hi) as [c Hc].
  split.
  - exists c. split; [exact Hc |]. apply list_elem_of_lookup. eauto.
  - split.
    + intros Heq. rewrite Hc in Heq. symmetry in Heq.
      exact (NoDup_lookup colors _ _ c colors_NoDup Hc Heq).
    + intros ->. reflexivity.
Qed.

End BacktestCharts.

(** ** The stock page (StockManagement.tsx) *)

Module StockManagement.
Import Js.
Local Open Scope list_scope.
Local Open Scope nat_scope.

(** [interface StockData] (stockService.ts) *)
Record StockData : Type := {
  symbol : string;
  date : string;
  open : Q;
  high : Q;
  low : Q;
  close : Q;
  volume : Q
}.

(** [interface StockListRequest] *)
Record StockListRequest : Type := {
  symbols : list string;
  startDate : string;
  endDate : string
}.

(** [interface StockListResponse], the fields the page reads. *)
Record StockListResponse : Type := {
  data : list StockData;
  response_symbols : list string
}.

(** The white space [String.prototype.trim] removes, among the ASCII
    characters: tab, line feed, vertical tab, form feed, carriage return
    and space. *)
Definition is_space (c : ascii) : bool :=
  let n := nat_of_ascii c in (9 <=? n) && (n <=? 13) || (n =? 32).

Fixpoint trimStart (s : string) : string :=
  match s with
  | String c s' => if is_space c then trimStart s' else s
  | EmptyString => EmptyString
  end.

Fixpoint trimEnd (s : string) : string :=
  match s with
  | EmptyString => EmptyString
  | String c s' =>
      match trimEnd s' with
      | EmptyString => if is_space c then EmptyString else String c EmptyString
      | t => String c t
      end
  end.

(** [s.trim()] *)
Definition trim (s : string) : string := trimEnd (trimStart s).

(** A string of white space only. *)
Fixpoint blank (s : string) : bool :=
  match s with
  | EmptyString => true
  | String c s' => is_space c && blank s'
  end.

(** [values.symbols.map((s) => s.trim().toUpperCase())
      .filter((s) => s.length > 0)] *)
Definition normalise (values_symbols : list string) : list string :=
  List.filter (fun s => 0 <? String.length s)
    (map (fun s => BacktestingPage.toUpperCase (trim s)) values_symbols).

(** The component state, the messages shown and the [addStocks] requests
    sent. *)
Record Page : Type := {
  loading : bool;
  stockData : list StockData;
  selectedSymbols : list string;
  dateRange : option (string * string);
  notices : list Notice;
  requests : list StockListRequest
}.

(** How [stockService.addStocks] ends: with the response, or with an error
    whose [response.data.message] may be missing. *)
Inductive Reply : Type :=
| loaded (response : StockListResponse)
| load_failed (message : option string).

Definition notify (n : Notice) (s : Page) : Page :=
  {| loading := loading s; stockData := stockData s;
     selectedSymbols := selectedSymbols s; dateRange := dateRange s;
     notices := notices s ++ [n]; requests := requests s |}.

(** [handleLoadStocks]; the two dates of the range are taken as already
    formatted ([format('YYYY-MM-DD')]). *)
Definition handleLoadStocks (values_symbols : list string)
    (values_dateRange : string * string) (reply : Reply) (s : Page) : Page :=
  let symbols := normalise values_symbols in
  if length symbols =? 0 then
    notify (msg_error "Please enter at least one stock symbol") s
  else
    let request :=
      {| symbols := symbols; startDate := fst values_dateRange;
         endDate := snd values_dateRange |} in
    match reply with
    | loaded response =>
        {| loading := false;
           stockData := data response;
           selectedSymbols := response_symbols response;
           dateRange := Some values_dateRange;
           notices := notices s ++
             [msg_success ("Successfully loaded " ++
                           pretty (length (data response)) ++
                           " records for " ++
                           pretty (length (response_symbols response)) ++
                           " stock(s)")%string];
           requests := requests s ++ [request] |}
    | load_failed message =>
        {| loading := false;
           stockData := stockData s;
           selectedSymbols := selectedSymbols s;
           dateRange := dateRange s;
           notices := notices s ++
             [msg_error (TrainingSession.or_else message
                           "Failed to load stocks")];
           requests := requests s ++ [request] |}
    end.

Lemma upper_idem c : BacktestingPage.upper (BacktestingPage.upper c) =
                     BacktestingPage.upper c.
Proof.
  unfold BacktestingPage.upper.
  destruct ((97 <=? nat_of_ascii c) && (nat_of_ascii c <=? 122)) eqn:E.
  - apply andb_prop in E. destruct E as [E1 E2].
    apply Nat.leb_le in E1, E2.
    rewrite nat_ascii_embedding by lia.
    destruct ((97 <=? nat_of_ascii c - 32) && _) eqn:E'; [| reflexivity].
    apply andb_prop in E'. destruct E' as [E3 _]. apply Nat.leb_le in E3. lia.
  - now rewrite E.
Qed.

Lemma is_space_upper c : is_space (BacktestingPage.upper c) = is_space c.
Proof.
  unfold BacktestingPage.upper, is_space.
  destruct ((97 <=? nat_of_ascii c) && (nat_of_ascii c <=? 122)) eqn:E;
    [| reflexivity].
  apply andb_prop in E. destruct E as [E1 E2]. apply Nat.leb_le in E1, E2.
  rewrite nat_ascii_embedding by lia.
  repeat match goal with
         | |- context [?a <=? ?b] => destruct (Nat.leb_spec a b)
         | |- context [?a =? ?b] => destruct (Nat.eqb_spec a b)
         end; simpl; try reflexivity; lia.
Qed.

Lemma toUpperCase_idem s :
  BacktestingPage.toUpperCase (BacktestingPage.toUpperCase s) =
  BacktestingPage.toUpperCase s.
Proof.
  induction s as [| c s IH]; simpl; [reflexivity |].
  now rewrite upper_idem, IH.
Qed.

Lemma toUpperCase_empty s :
  BacktestingPage.toUpperCase s = EmptyString <-> s = EmptyString.
Proof. destruct s; simpl; split; congruence. Qed.

Lemma trimStart_upper s :
  trimStart (BacktestingPage.toUpperCase s) =
  BacktestingPage.toUpperCase (trimStart s).
Proof.
  induction s as [| c s IH]; simpl; [reflexivity |].
  rewrite is_space_upper. destruct (is_space c); [exact IH | reflexivity].
Qed.

Lemma trimEnd_upper s :
  trimEnd (BacktestingPage.toUpperCase s) =
  BacktestingPage.toUpperCase (trimEnd s).
Proof.
  induction s as [| c s IH]; simpl; [reflexivity |].
  rewrite IH, is_space_upper.
  destruct (trimEnd s); simpl; [destruct (is_space c) |]; reflexivity.
Qed.

Lemma trim_upper s :
  trim (BacktestingPage.toUpperCase s) = BacktestingPage.toUpperCase (trim s).
Proof. unfold trim. now rewrite trimStart_upper, trimEnd_upper. Qed.

Lemma trimEnd_idem s : trimEnd (trimEnd s) = trimEnd s.
Proof.
  induction s as [| c s IH]; simpl; [reflexivity |].
  destruct (trimEnd s) as [| d t] eqn:E.
  - destruct (is_space c) eqn:Ec; simpl; [reflexivity | now rewrite Ec].
  - simpl in *. now rewrite IH.
Qed.

(** Nothing to remove in front. *)
Definition no_lead (s : string) : Prop :=
  match s with
  | String c _ => is_space c = false
  | EmptyString => True
  end.

Lemma trimStart_no_lead s : no_lead (trimStart s).
Proof.
  induction s as [| c s IH]; simpl; [exact I |].
  destruct (is_space c) eqn:E; [exact IH | exact E].
Qed.

Lemma no_lead_trimStart s : no_lead s -> trimStart s = s.
Proof. destruct s as [| c s]; simpl; [reflexivity |]. now intros ->. Qed.

Lemma no_lead_trimEnd s : no_lead s -> no_lead (trimEnd s).
Proof.
  destruct s as [| c s]; simpl; [exact (fun H => H) |]. intros E.
  destruct (trimEnd s); [rewrite E |]; exact E.
Qed.

Lemma trim_idem s : trim (trim s) = trim s.
Proof.
  unfold trim.
  rewrite (no_lead_trimStart (trimEnd (trimStart s)))
    by apply no_lead_trimEnd, trimStart_no_lead.
  apply trimEnd_idem.
Qed.

Lemma blank_trimStart s : blank (trimStart s) = blank s.
Proof.
  induction s as [| c s IH]; simpl; [reflexivity |].
  destruct (is_space c) eqn:E; simpl; [exact IH | now rewrite E].
Qed.

Lemma trimEnd_empty s : trimEnd s = EmptyString <-> blank s = true.
Proof.
  induction s as [| c s IH]; simpl; [tauto |].
  destruct (trimEnd s) as [| d t].
  - destruct (is_space c); simpl; [| split; discriminate].
    split; intros _; [now apply IH | reflexivity].
  - split; [discriminate |]. intros H. apply andb_prop in H.
    destruct H as [_ H]. apply IH in H. discriminate.
Qed.

Lemma trim_empty s : trim s = EmptyString <-> blank s = true.
Proof. unfold trim. now rewrite trimEnd_empty, blank_trimStart. Qed.

Lemma length_pos s : (0 <? String.length s) = true <-> s <> EmptyString.
Proof.
  destruct s as [| c s]; split; try discriminate; try reflexivity.
  intros H. now contradiction H.
Qed.

Lemma normalise_elem x values_symbols :
  x ∈ normalise values_symbols <->
  x <> EmptyString /\
  exists s, s ∈ values_symbols /\ x = BacktestingPage.toUpperCase (trim s).
Proof.
  unfold normalise. rewrite list_elem_of_In, List.filter_In, in_map_iff.
  rewrite length_pos. split.
  - intros [(s & <- & Hs) Hx]. split; [exact Hx |]. exists s.
    split; [now apply list_elem_of_In | reflexivity].
  - intros [Hx (s & Hs & ->)]. split; [| exact Hx]. exists s.
    split; [reflexivity | now apply list_elem_of_In].
Qed.

Lemma normalise_fixed symbols :
  Forall (fun x => x <> EmptyString /\ trim x = x /\
                   BacktestingPage.toUpperCase x = x) symbols ->
  normalise symbols = symbols.
Proof.
  unfold normalise. induction 1 as [| x l (Hx & Ht & Hu) _ IH]; simpl;
    [reflexivity |].
  rewrite Ht, Hu, (proj2 (length_pos x) Hx). now f_equal.
Qed.

Lemma normalise_sublist values_symbols :
  normalise values_symbols `sublist_of`
  map (fun s => BacktestingPage.toUpperCase (trim s)) values_symbols.
Proof.
  unfold normalise. induction values_symbols as [| s l IH]; simpl;
    [constructor |].
  destruct (0 <? String.length _); [now apply sublist_skip | now apply sublist_cons].
Qed.

Lemma normalise_nil values_symbols :
  normalise values_symbols = [] <->
  Forall (fun s => blank s = true) values_symbols.
Proof.
  unfold normalise. induction values_symbols as [| s l IH]; simpl.
  - split; [constructor | reflexivity].
  - rewrite Forall_cons, <- IH, <- trim_empty.
    destruct (0 <? String.length _) eqn:E.
    + apply length_pos in E. rewrite toUpperCase_empty in E.
      split; [discriminate | tauto].
    + assert (H : BacktestingPage.toUpperCase (trim s) = EmptyString).
      { destruct (BacktestingPage.toUpperCase (trim s)); [reflexivity |].
        discriminate. }
      apply (proj1 (toUpperCase_empty _)) in H.
      split; [intros Hl; split; assumption | intros [_ Hl]; exact Hl].
Qed.

(** X11: the symbols [handleLoadStocks] sends are the entered ones, in
    their order and with their repetitions, trimmed and in upper case,
    without those that were white space only: each is non-empty, has
    nothing left to trim and no lower-case letter, and sending them again
    would send the same list. When everything entered is blank there is
    no request and no change but the error message; otherwise exactly one
    request goes out, with those symbols and the two dates, and [loading]
    is off afterwards whatever the answer. *)
Theorem load_request_symbols_normalised
    (values_symbols : list string) (values_dateRange : string * string)
    (reply : Reply) (s : Page) :
  let sent := normalise values_symbols in
  let s' := handleLoadStocks values_symbols values_dateRange reply s in
  Forall (fun x => x <> EmptyString /\ trim x = x /\
                   BacktestingPage.toUpperCase x = x) sent /\
  normalise sent = sent /\
  sent `sublist_of`
    map (fun x => BacktestingPage.toUpperCase (trim x)) values_symbols /\
  (Forall (fun x => blank x = true) values_symbols ->
   sent = [] /\
   s' = notify (msg_error "Please enter at least one stock symbol") s) /\
  (~ Forall (fun x => blank x = true) values_symbols ->
   requests s' =
     requests s ++ [{| symbols := sent; startDate := fst values_dateRange;
                       endDate := snd values_dateRange |}] /\
   loading s' = false).
Proof.
  intros sent s'.
  assert (Hnormal : Forall (fun x => x <> EmptyString /\ trim x = x /\
                      BacktestingPage.toUpperCase x = x) sent).
  { apply Forall_forall. intros x Hx. apply normalise_elem in Hx.
    destruct Hx as [Hne (y & _ & Heq)]. split; [exact Hne |]. subst x.
    split.
    - now rewrite trim_upper, trim_idem.
    - apply toUpperCase_idem. }
  split; [exact Hnormal |].
  split; [now apply normalise_fixed |].
  split; [apply normalise_sublist |].
  split.
  - intros Hblank. apply normalise_nil in Hblank. fold sent in Hblank.
    split; [exact Hblank |].
    unfold s', handleLoadStocks. fold sent. now rewrite Hblank.
  - intros Hsome. rewrite <- normalise_nil in Hsome. fold sent in Hsome.
    unfold s', handleLoadStocks. fold sent.
    destruct sent as [| x sent']; [contradiction |]. simpl.
    destruct reply; split; reflexivity.
Qed.

(** An entry of the form with stray blanks, a blank one and two spellings
    of one symbol. *)
Example normalise_entries :
  normalise [" aapl"; "  "; "Msft "; ""; "AAPL"] = ["AAPL"; "MSFT"; "AAPL"].
Proof. reflexivity. Qed.

(** *** The price chart *)

(** [dataByDate[item.date][item.symbol] = item.close] on the row found. *)
Definition write (row : Object) (item : StockData) : Object :=
  Object_set (symbol item) (number (close item)) row.

(** The body of [stockData.forEach]: [if (!dataByDate[item.date])
    dataByDate[item.date] = { date: item.date }] and then the write. For
    a date that names a property inherited from [Object.prototype] the
    lookup finds the inherited value: no row is made, and the write lands
    on that value, not in [dataByDate]. *)
Definition group (dataByDate : gmap string Object) (item : StockData)
    : gmap string Object :=
  if decide (date item ∈ Object_prototype) then dataByDate
  else
    let row := default {["date" := text (date item)]}
                       (dataByDate !! date item) in
    <[date item := write row item]> dataByDate.

(** [a.date] of a row, as the receiver of [localeCompare]: a string (the
    call fails on anything else). *)
Definition date_of (row : Object) : string :=
  match row !! "date" with
  | Some (text d) => d
  | _ => EmptyString
  end.

(** The closing prices of the records of one date and one symbol, in
    the order of the records. *)
Definition closes (stockData : list StockData) (d s : string) : list Q :=
  map close
    (base.filter (fun item => symbol item = s /\ date item = d) stockData).

Lemma fold_write_lookup items : forall row s,
  s <> "__proto__" ->
  fold_left write items row !! s =
  match last (map close (base.filter (fun item => symbol item = s) items)) with
  | Some c => Some (number c)
  | None => row !! s
  end.
Proof.
  induction items as [| item items IH]; intros row s Hs; simpl;
    [reflexivity |].
  rewrite IH by exact Hs. rewrite filter_cons.
  destruct (decide (symbol item = s)) as [Heq | Hne].
  - simpl. rewrite last_cons.
    destruct (last (map close (base.filter _ items))); [reflexivity |].
    unfold write. rewrite Heq. now apply Object_set_eq.
  - destruct (last (map close (base.filter _ items))); [reflexivity |].
    unfold write. now apply Object_set_ne.
Qed.

Lemma fold_group_lookup items : forall dataByDate d,
  Forall (fun item => date item ∉ Object_prototype) items ->
  fold_left group items dataByDate !! d =
  match base.filter (fun item => date item = d) items with
  | [] => dataByDate !! d
  | item :: others =>
      Some (fold_left write (item :: others)
              (default {["date" := text d]} (dataByDate !! d)))
  end.
Proof.
  induction items as [| item items IH]; intros dataByDate d Hdates; simpl;
    [reflexivity |].
  apply Forall_cons in Hdates. destruct Hdates as [Hitem Hdates].
  rewrite IH by exact Hdates. rewrite filter_cons. unfold group.
  destruct (decide (date item ∈ Object_prototype)); [contradiction |].
  destruct (decide (date item = d)) as [<- | Hne].
  - rewrite lookup_insert_eq. simpl.
    destruct (base.filter _ items); reflexivity.
  - rewrite lookup_insert_ne by exact Hne. reflexivity.
Qed.

Lemma filter_none {A : Type} (P : A -> Prop) `{forall x, Decision (P x)}
    (l : list A) :
  Forall (fun x => ~ P x) l -> base.filter P l = [].
Proof.
  induction 1 as [| x l Hx _ IH]; [reflexivity |].
  rewrite filter_cons. destruct (decide (P x)); [contradiction | exact IH].
Qed.

Lemma grouped_row stockData d row :
  Forall (fun item => date item ∉ Object_prototype) stockData ->
  Forall (fun item => symbol item <> "date") stockData ->
  fold_left group stockData ∅ !! d = Some row ->
  (exists item, item ∈ stockData /\ date item = d) /\
  row !! "date" = Some (text d) /\
  forall s, s <> "date" -> s <> "__proto__" ->
    row !! s = number <$> last (closes stockData d s).
Proof.
  intros Hdates Hsymbols. rewrite fold_group_lookup by exact Hdates.
  destruct (base.filter (fun item => date item = d) stockData)
    as [| item others] eqn:E; [now rewrite lookup_empty |].
  rewrite lookup_empty. cbn [default from_option].
  remember (item :: others) as items eqn:Hitems.
  intros [= <-]. subst items.
  split; [| split].
  - assert (Hin : item ∈ base.filter (fun item => date item = d) stockData)
      by (rewrite E; left).
    apply list_elem_of_filter in Hin. destruct Hin as [Hd Hin].
    exists item. split; assumption.
  - rewrite fold_write_lookup by discriminate.
    rewrite filter_none; [apply lookup_singleton_eq |].
    rewrite <- E. apply Forall_forall. intros x Hx.
    apply list_elem_of_filter in Hx. destruct Hx as [_ Hx].
    rewrite Forall_forall in Hsymbols. now apply Hsymbols.
  - intros s Hs Hproto. rewrite fold_write_lookup by exact Hproto.
    rewrite <- E, list_filter_filter. unfold closes.
    destruct (last _); [reflexivity |].
    apply lookup_singleton_ne. congruence.
Qed.

Section ChartData.

(** [String.prototype.localeCompare]: negative, zero or positive; which
    order it is depends on the locale of the browser. *)
Variable localeCompare : string -> string -> Z.

(** [(a, b) => a.date.localeCompare(b.date)] does not put [b] before
    [a]. *)
Definition by_date (a b : Object) : Prop :=
  (localeCompare (date_of a) (date_of b) <= 0)%Z.

#[local] Instance by_date_dec : RelDecision by_date.
Proof. intros a b. unfold by_date. apply _. Defined.

(** [getChartData]; rows that the comparator takes as equal may come in
    another order than the browser leaves them in. *)
Definition getChartData (stockData : list StockData) : list Object :=
  if length stockData =? 0 then []
  else merge_sort by_date (Object_values (fold_left group stockData ∅)).

(** What every collation gives: a total preorder. *)
Hypothesis localeCompare_total : forall a b,
  (localeCompare a b <= 0 \/ localeCompare b a <= 0)%Z.
Hypothesis localeCompare_trans : forall a b c,
  (localeCompare a b <= 0 -> localeCompare b c <= 0 ->
   localeCompare a c <= 0)%Z.

#[local] Instance by_date_total : Total by_date.
Proof. intros a b. apply localeCompare_total. Qed.

#[local] Instance by_date_trans : Transitive by_date.
Proof. intros a b c. apply localeCompare_trans. Qed.

Lemma getChartData_sorted stockData :
  getChartData stockData =
  merge_sort by_date (Object_values (fold_left group stockData ∅)).
Proof. destruct stockData; reflexivity. Qed.

Lemma getChartData_elem stockData row :
  row ∈ getChartData stockData <->
  exists d, fold_left group stockData ∅ !! d = Some row.
Proof.
  rewrite getChartData_sorted, merge_sort_Permutation. unfold Object_values.
  rewrite list_elem_of_fmap. split.
  - intros ([d row'] & -> & Hin). exists d. now apply elem_of_map_to_list.
  - intros (d & Hd). exists (d, row). split; [reflexivity |].
    now apply elem_of_map_to_list.
Qed.

(** X12: for records whose dates are not names inherited from
    [Object.prototype] and whose symbols are not "date", and a
    [localeCompare] that is a total preorder, the price chart has one row
    per date of the records and no other, no row comes after a row whose
    date the comparator puts later, every row keeps its date, and under
    a symbol (other than "__proto__") it holds the closing price of the
    last record of that date and symbol, nothing if there is none. *)
Theorem price_chart_rows (stockData : list StockData) :
  Forall (fun item => date item ∉ Object_prototype) stockData ->
  Forall (fun item => symbol item <> "date") stockData ->
  let rows := getChartData stockData in
  StronglySorted by_date rows /\
  NoDup (map date_of rows) /\
  (forall d, d ∈ map date_of rows <->
             exists item, item ∈ stockData /\ date item = d) /\
  (forall row, row ∈ rows -> row !! "date" = Some (text (date_of row))) /\
  (forall row s, row ∈ rows -> s <> "date" -> s <> "__proto__" ->
     row !! s = number <$> last (closes stockData (date_of row) s)).
Proof.
  intros Hdates Hsymbols rows.
  assert (Hrow : forall d row,
            fold_left group stockData ∅ !! d = Some row -> date_of row = d).
  { intros d row Hd.
    destruct (grouped_row _ _ _ Hdates Hsymbols Hd) as (_ & Hdate & _).
    unfold date_of. now rewrite Hdate. }
  assert (Hkeys : map date_of (Object_values (fold_left group stockData ∅)) =
                  (map_to_list (fold_left group stockData ∅)).*1).
  { unfold Object_values. rewrite map_map. apply map_ext_in.
    intros [d row] Hin. apply list_elem_of_In, elem_of_map_to_list in Hin.
    simpl. now apply Hrow. }
  assert (Hperm : map date_of rows ≡ₚ
                  (map_to_list (fold_left group stockData ∅)).*1).
  { rewrite <- Hkeys. unfold rows. rewrite getChartData_sorted.
    apply Permutation_map, merge_sort_Permutation. }
  split; [| split; [| split; [| split]]].
  - unfold rows. rewrite getChartData_sorted.
    apply StronglySorted_merge_sort; apply _.
  - rewrite Hperm. apply NoDup_fst_map_to_list.
  - intros d. rewrite Hperm. rewrite list_elem_of_fmap. split.
    + intros ([d' row] & -> & Hin). apply elem_of_map_to_list in Hin.
      simpl. now destruct (grouped_row _ _ _ Hdates Hsymbols Hin) as (H & _).
    + intros (item & Hin & Hd).
      assert (Hsome : is_Some (fold_left group stockData ∅ !! d)).
      { rewrite fold_group_lookup by exact Hdates.
        destruct (base.filter (fun item => date item = d) stockData) eqn:E;
          [| eauto].
        assert (H : item ∈ base.filter (fun item => date item = d) stockData)
          by (apply list_elem_of_filter; split; assumption).
        rewrite E in H. now apply elem_of_nil in H. }
      destruct Hsome as [row Hrow']. exists (d, row).
      split; [reflexivity | now apply elem_of_map_to_list].
  - intros row Hin. apply getChartData_elem in Hin. destruct Hin as (d & Hd).
    rewrite (Hrow _ _ Hd).
    now destruct (grouped_row _ _ _ Hdates Hsymbols Hd) as (_ & H & _).
  - intros row s Hin Hs Hproto. apply getChartData_elem in Hin.
    destruct Hin as (d & Hd). rewrite (Hrow _ _ Hd).
    destruct (grouped_row _ _ _ Hdates Hsymbols Hd) as (_ & _ & H).
    now apply H.
Qed.

End ChartData.

(** The order of the code units, which is the order every locale gives
    to ISO dates. *)
Definition code_unit_compare (a b : string) : Z :=
  match String.compare a b with
  | Lt => (-1)%Z
  | Eq => 0%Z
  | Gt => 1%Z
  end.

Lemma code_unit_compare_le a b : (code_unit_compare a b <= 0)%Z <-> le a b.
Proof.
  unfold code_unit_compare, le, String.leb.
  destruct (String.compare a b); split; try reflexivity; try lia;
    discriminate.
Qed.

Lemma code_unit_compare_total a b :
  (code_unit_compare a b <= 0 \/ code_unit_compare b a <= 0)%Z.
Proof. rewrite !code_unit_compare_le. apply le_total. Qed.

Lemma code_unit_compare_trans a b c :
  (code_unit_compare a b <= 0 -> code_unit_compare b c <= 0 ->
   code_unit_compare a c <= 0)%Z.
Proof. rewrite !code_unit_compare_le. apply le_transitive. Qed.

Definition bar (symbol date : string) (close : Q) : StockData :=
  {| symbol := symbol; date := date; open := close; high := close;
     low := close; close := close; volume := 1000 |}.

(** Three records of one day, two of them of the same symbol, after a
    record of the next day. *)
Definition two_days : list StockData :=
  [bar "AAPL" "2024-01-03" 187; bar "MSFT" "2024-01-02" 370;
   bar "AAPL" "2024-01-02" 185; bar "AAPL" "2024-01-02" 186].

Lemma price_chart_rows_witness :
  Forall (fun item => date item ∉ Object_prototype) two_days /\
  Forall (fun item => symbol item <> "date") two_days /\
  map date_of (getChartData code_unit_compare two_days) =
    ["2024-01-02"; "2024-01-03"] /\
  StronglySorted (by_date code_unit_compare)
    (getChartData code_unit_compare two_days) /\
  (forall row, row ∈ getChartData code_unit_compare two_days ->
     date_of row = "2024-01-02" ->
     row !! "AAPL" = Some (number 186) /\ row !! "MSFT" = Some (number 370)).
Proof.
  assert (Hdates : Forall (fun item => date item ∉ Object_prototype) two_days)
    by (repeat constructor; compute_done).
  assert (Hsymbols : Forall (fun item => symbol item <> "date") two_days)
    by (repeat constructor; discriminate).
  destruct (price_chart_rows code_unit_compare code_unit_compare_total
              code_unit_compare_trans two_days Hdates Hsymbols)
    as (Hsorted & _ & _ & _ & Hclose).
  split; [exact Hdates | split; [exact Hsymbols | split]].
  - vm_compute. reflexivity.
  - split; [exact Hsorted |]. intros row Hin Hd.
    rewrite !(Hclose row _ Hin) by discriminate. rewrite Hd.
    split; reflexivity.
Defined.

End StockManagement.
